(** * Proximity service: domain logic and the SSE broadcast layer

    A shallow embedding of [domain.ts] (distance, nearby filtering, consent
    records) and of the broadcast part of [index.ts] (the channel registry,
    the publish and subscribe handlers), followed by the properties of the
    service specification that concern them. *)

From Stdlib Require Import QArith Qround Qabs Lqa Sorting.Sorted DecimalString.
From stdpp Require Import gmap strings list.

(** ** JavaScript values used by the service *)

Module JS.

(** A JavaScript [number]: a rational, or [NaN].  Rounding error, the
    infinities and the sign of zero are left out of the model. *)
Inductive number : Type :=
| NaN
| Num (q : Q).

Definition lift2 (f : Q → Q → Q) (a b : number) : number :=
  match a, b with
  | Num x, Num y => Num (f x y)
  | _, _ => NaN
  end.

Definition add : number → number → number := lift2 Qplus.
Definition sub : number → number → number := lift2 Qminus.
Definition mul : number → number → number := lift2 Qmult.

(** The service only ever divides by a non-zero literal. *)
Definition div (a b : number) : number :=
  match a, b with
  | Num x, Num y => if Qeq_bool y 0 then NaN else Num (x / y)
  | _, _ => NaN
  end.

(** [a <= b] and [a < b]: any comparison with [NaN] is false. *)
Definition le (a b : number) : bool :=
  match a, b with
  | Num x, Num y => Qle_bool x y
  | _, _ => false
  end.

Definition lt (a b : number) : bool :=
  match a, b with
  | Num x, Num y => negb (Qle_bool y x)
  | _, _ => false
  end.

(** [Math.round]: the nearest integer, halves going up. *)
Definition Math_round (a : number) : number :=
  match a with
  | Num x => Num (inject_Z (Qfloor (x + (1 # 2))))
  | NaN => NaN
  end.

Definition of_nat (n : nat) : number := Num (inject_Z (Z.of_nat n)).

(** Truthiness ([!x] is its negation).  A property that is absent reads as
    [undefined], here [None], which is falsy. *)
Definition truthy_number (n : number) : bool :=
  match n with
  | Num q => negb (Qeq_bool q 0)
  | NaN => false
  end.

Definition truthy_string (s : string) : bool :=
  match s with
  | EmptyString => false
  | String _ _ => true
  end.

Definition truthy {A : Type} (t : A → bool) (v : option A) : bool :=
  match v with
  | Some x => t x
  | None => false
  end.

(** Parsed JSON, as [c.req.json()] returns it and [JSON.stringify]
    consumes it. *)
#[warnings="-register-all"]
Inductive JSON : Type :=
| JNull
| JBool (b : bool)
| JNumber (n : number)
| JString (s : string)
| JArray (items : list JSON)
| JObject (fields : list (string * JSON)).

(** [Array.prototype.sort(compareFn)].  The language fixes the result for
    a consistent comparator: the stable arrangement in which [compareFn]
    is never positive on an element and a later one.  Insertion from the
    right computes it.  A [NaN] from the comparator counts as [+0]. *)
Section Sort.
Context {A : Type}.
Variable compareFn : A → A → number.

Fixpoint sort_insert (x : A) (l : list A) : list A :=
  match l with
  | [] => [x]
  | y :: l' =>
      if lt (Num 0) (compareFn x y) then y :: sort_insert x l'
      else x :: y :: l'
  end.

Fixpoint Array_sort (l : list A) : list A :=
  match l with
  | [] => []
  | x :: l' => sort_insert x (Array_sort l')
  end.
End Sort.

(** Comparing by a numeric key, [(a, b) => a.key - b.key], and the order
    it is meant to produce. *)
Section ByKey.
Context {A : Type}.
Variable key : A → number.

Definition by_key (a b : A) : number := sub (key a) (key b).
Definition key_le (a b : A) : Prop := le (key a) (key b) = true.
Definition has_key (a : A) : Prop := ∃ q, key a = Num q.
End ByKey.

End JS.

(** ** A runtime to evaluate with

    [JSON.stringify] and the printing of numbers, for strings that need no
    escaping and numbers that are finite decimals.  The handlers below take
    the serialiser as a parameter; this one instantiates it in examples. *)

Module Runtime.
Import JS.

(** A name between double quotes. *)
Definition quoted (name : string) : string :=
  String (Ascii.ascii_of_nat 34)
    (String.append name (String (Ascii.ascii_of_nat 34) EmptyString)).

Fixpoint fraction (fuel : nat) (num den : Z) : string :=
  match fuel with
  | O => EmptyString
  | S fuel =>
      if (num =? 0)%Z then EmptyString
      else String (Ascii.ascii_of_nat (48 + Z.to_nat (10 * num / den)))
                  (fraction fuel ((10 * num) mod den) den)
  end.

Definition Number_toString (n : number) : string :=
  match n with
  | NaN => "NaN"
  | Num q =>
      let num := Z.abs (Qnum q) in
      let den := Z.pos (Qden q) in
      String.append (if (Qnum q <? 0)%Z then "-" else "")
        (String.append (NilZero.string_of_int (Z.to_int (num / den)))
           (if (num mod den =? 0)%Z then EmptyString
            else String.append "." (fraction 17 (num mod den) den)))
  end.

Fixpoint decimals (digits : nat) (num den : Z) : string :=
  match digits with
  | O => EmptyString
  | S digits =>
      String (Ascii.ascii_of_nat (48 + Z.to_nat (10 * num / den)))
             (decimals digits ((10 * num) mod den) den)
  end.

(** [n.toFixed(digits)]: the nearest decimal with that many digits. *)
Definition Number_toFixed (n : number) (digits : nat) : string :=
  match n with
  | NaN => "NaN"
  | Num q =>
      let scale := (10 ^ Z.of_nat digits)%Z in
      let m := Qfloor (Qabs q * inject_Z scale + (1 # 2)) in
      String.append (if (Qnum q <? 0)%Z then "-" else "")
        (String.append (NilZero.string_of_int (Z.to_int (m / scale)))
           (match digits with
            | O => EmptyString
            | S _ => String.append "." (decimals digits (m mod scale) scale)
            end))
  end.

Fixpoint JSON_stringify (v : JSON) : string :=
  match v with
  | JNull => "null"
  | JBool true => "true"
  | JBool false => "false"
  | JNumber NaN => "null"
  | JNumber n => Number_toString n
  | JString s => quoted s
  | JArray items =>
      String.append "["
        (String.append
           ((fix go (l : list JSON) : string :=
               match l with
               | [] => EmptyString
               | [x] => JSON_stringify x
               | x :: l =>
                   String.append (JSON_stringify x) (String.append "," (go l))
               end) items)
           "]")
  | JObject fields =>
      String.append "{"
        (String.append
           ((fix go (l : list (string * JSON)) : string :=
               match l with
               | [] => EmptyString
               | [(k, x)] =>
                   String.append (quoted k)
                     (String.append ":" (JSON_stringify x))
               | (k, x) :: l =>
                   String.append (quoted k)
                     (String.append ":"
                        (String.append (JSON_stringify x)
                           (String.append "," (go l))))
               end) fields)
           "}")
  end.

End Runtime.

(** ** domain.ts *)

Module GeoPoint.
Record t : Type := mk { lat : JS.number; lng : JS.number }.
End GeoPoint.

Inductive PresenceStatus : Type :=
| nearby
| in_range
| out_of_range
| unknown.

Module LocationConsent.
Record t : Type := mk {
  profileId : string;
  locationTracking : bool;
  bleDiscovery : bool;
  grantedAt : string;
  revokedAt : option string;
}.
End LocationConsent.

Module PresenceRecord.
Record t : Type := mk {
  profileId : string;
  location : GeoPoint.t;
  distanceMeters : JS.number;
  distanceLabel : string;
  status : PresenceStatus;
}.
End PresenceRecord.

Module ProfileLocation.
Record t : Type := mk { profileId : string; location : GeoPoint.t }.
End ProfileLocation.

Module Domain.
Import JS.

Definition EARTH_RADIUS_METERS : number := Num 6371000.

Section WithRuntime.
(** The [Math] object and the number formatting of the runtime. *)
Variables Math_sin Math_cos Math_sqrt : number → number.
Variable Math_atan2 : number → number → number.
Variable Math_PI : number.
Variable Number_toString : number → string.
Variable Number_toFixed : number → nat → string.

Definition toRadians (degrees : number) : number :=
  div (mul degrees Math_PI) (Num 180).

Definition calculateDistance (from to : GeoPoint.t) : number :=
  let dLat := toRadians (sub (GeoPoint.lat to) (GeoPoint.lat from)) in
  let dLng := toRadians (sub (GeoPoint.lng to) (GeoPoint.lng from)) in
  let a :=
    add (mul (Math_sin (div dLat (Num 2))) (Math_sin (div dLat (Num 2))))
        (mul (mul (mul (Math_cos (toRadians (GeoPoint.lat from)))
                       (Math_cos (toRadians (GeoPoint.lat to))))
                  (Math_sin (div dLng (Num 2))))
             (Math_sin (div dLng (Num 2)))) in
  let c :=
    mul (Num 2) (Math_atan2 (Math_sqrt a) (Math_sqrt (sub (Num 1) a))) in
  mul EARTH_RADIUS_METERS c.

(** An argument left out takes its default: [bleRange = 30],
    [maxRange = 5000]. *)
Definition classifyDistance (distanceMeters : number)
    (bleRange maxRange : option number) : PresenceStatus :=
  let bleRange := default (Num 30) bleRange in
  let maxRange := default (Num 5000) maxRange in
  if le distanceMeters bleRange then nearby
  else if le distanceMeters maxRange then in_range
  else out_of_range.

Definition formatDistance (meters : number) : string :=
  if lt meters (Num 1000)
  then String.append (Number_toString (Math_round meters)) "m"
  else String.append (Number_toFixed (div meters (Num 1000)) 1) "km".

Definition findNearby (myPosition : GeoPoint.t)
    (candidates : list ProfileLocation.t)
    (maxRadiusMeters bleRangeMeters : option number)
    : list PresenceRecord.t :=
  let maxRadiusMeters := default (Num 5000) maxRadiusMeters in
  let bleRangeMeters := default (Num 30) bleRangeMeters in
  Array_sort
    (λ a b, sub (PresenceRecord.distanceMeters a)
                (PresenceRecord.distanceMeters b))
    (List.filter
       (λ r, le (PresenceRecord.distanceMeters r) maxRadiusMeters)
       (List.map
          (λ c,
             let dist :=
               calculateDistance myPosition (ProfileLocation.location c) in
             {| PresenceRecord.profileId := ProfileLocation.profileId c;
                PresenceRecord.location := ProfileLocation.location c;
                PresenceRecord.distanceMeters := Math_round dist;
                PresenceRecord.distanceLabel := formatDistance dist;
                PresenceRecord.status :=
                  classifyDistance dist (Some bleRangeMeters)
                                   (Some maxRadiusMeters) |})
          candidates)).
End WithRuntime.

(** [now] stands for the reading of [new Date().toISOString()]. *)
Definition createConsent (profileId : string)
    (opts_locationTracking opts_bleDiscovery : option bool) (now : string)
    : LocationConsent.t :=
  {| LocationConsent.profileId := profileId;
     LocationConsent.locationTracking := default false opts_locationTracking;
     LocationConsent.bleDiscovery := default false opts_bleDiscovery;
     LocationConsent.grantedAt := now;
     LocationConsent.revokedAt := None |}.

Definition isConsentValid (consent : option LocationConsent.t) : bool :=
  match consent with
  | None => false
  | Some consent =>
      if truthy truthy_string (LocationConsent.revokedAt consent) then false
      else LocationConsent.locationTracking consent
           || LocationConsent.bleDiscovery consent
  end.

Definition revokeConsent (consent : LocationConsent.t) (now : string)
    : LocationConsent.t :=
  {| LocationConsent.profileId := LocationConsent.profileId consent;
     LocationConsent.locationTracking := false;
     LocationConsent.bleDiscovery := false;
     LocationConsent.grantedAt := LocationConsent.grantedAt consent;
     LocationConsent.revokedAt := Some now |}.

End Domain.

(** ** index.ts: real-time broadcasting over server-sent events *)

(** The request body of [POST /api/proximity/broadcast] as the handler reads
    it: every property may be absent. *)
Module Location.
Record t : Type := mk { lat : option JS.number; lng : option JS.number }.
End Location.

Module BroadcastBody.
Record t : Type := mk {
  channelId : option string;
  profileId : option string;
  location : option Location.t;
  metadata : option JS.JSON;
}.
End BroadcastBody.

Module BroadcastEvent.
Record t : Type := mk {
  profileId : option string;
  location : option Location.t;
  timestamp : string;
  metadata : option JS.JSON;
}.
End BroadcastEvent.

Module Broadcast.
Import JS.

(** Objects are known by their identity: a controller, a [Set] of
    controllers and an encoded [Uint8Array] are each an index into the
    store they were allocated in. *)
Abbreviation SSEController := nat (only parsing).
Abbreviation SetRef := nat (only parsing).
Abbreviation BufRef := nat (only parsing).

(** The readable stream behind a controller: whether it still takes chunks,
    and the chunks it has taken. *)
Record Stream : Type := mkStream {
  readable : bool;
  queue : list BufRef;
}.

(** [channels] is the module-level [Map]; [sets], [streams] and [buffers]
    hold the objects it and the handlers refer to; [enqueue_log] records
    the calls to [enqueue], accepted or not. *)
Record State : Type := mkState {
  channels : gmap string SetRef;
  sets : list (list SSEController);
  streams : list Stream;
  buffers : list string;
  enqueue_log : list (SSEController * BufRef);
}.

Definition init : State :=
  {| channels := ∅; sets := []; streams := []; buffers := [];
     enqueue_log := [] |}.

Definition set_channels (f : gmap string SetRef → gmap string SetRef)
    (st : State) : State :=
  {| channels := f (channels st); sets := sets st; streams := streams st;
     buffers := buffers st; enqueue_log := enqueue_log st |}.

Definition set_sets
    (f : list (list SSEController) → list (list SSEController))
    (st : State) : State :=
  {| channels := channels st; sets := f (sets st); streams := streams st;
     buffers := buffers st; enqueue_log := enqueue_log st |}.

Definition set_streams (f : list Stream → list Stream) (st : State) : State :=
  {| channels := channels st; sets := sets st; streams := f (streams st);
     buffers := buffers st; enqueue_log := enqueue_log st |}.

Definition set_buffers (f : list string → list string) (st : State) : State :=
  {| channels := channels st; sets := sets st; streams := streams st;
     buffers := f (buffers st); enqueue_log := enqueue_log st |}.

Definition set_enqueue_log
    (f : list (SSEController * BufRef) → list (SSEController * BufRef))
    (st : State) : State :=
  {| channels := channels st; sets := sets st; streams := streams st;
     buffers := buffers st; enqueue_log := f (enqueue_log st) |}.

(** *** [Set<SSEController>]: elements in insertion order *)

Definition Set_new (st : State) : SetRef * State :=
  (length (sets st), set_sets (λ h, h ++ [[]]) st).

Definition Set_values (subs : SetRef) (st : State) : list SSEController :=
  default [] (sets st !! subs).

Definition Set_size (subs : SetRef) (st : State) : nat :=
  length (Set_values subs st).

Definition Set_add (subs : SetRef) (controller : SSEController)
    (st : State) : State :=
  set_sets
    (alter (λ l, if bool_decide (controller ∈ l) then l else l ++ [controller])
           subs)
    st.

Definition Set_delete (subs : SetRef) (controller : SSEController)
    (st : State) : State :=
  set_sets (alter (filter (λ x, x ≠ controller)) subs) st.

(** *** The runtime: encoder, stream controller *)

(** Outcome of a call that may throw. *)
Inductive Completion : Type :=
| Normal (st : State)
| Throw (st : State).

(** [new TextEncoder().encode(text)]: a new buffer holding the text. *)
Definition TextEncoder_encode (text : string) (st : State) : BufRef * State :=
  (length (buffers st), set_buffers (λ b, b ++ [text]) st).

(** [controller.enqueue(chunk)]: throws unless the stream is readable. *)
Definition enqueue (controller : SSEController) (chunk : BufRef)
    (st : State) : Completion :=
  let st := set_enqueue_log (λ l, l ++ [(controller, chunk)]) st in
  match streams st !! controller with
  | Some s =>
      if readable s
      then Normal
             (set_streams
                (λ h, <[controller := {| readable := readable s;
                                         queue := queue s ++ [chunk] |}]> h)
                st)
      else Throw st
  | None => Throw st
  end.

(** [new ReadableStream(...)] creates the controller handed to [start]. *)
Definition ReadableStream_new (st : State) : SSEController * State :=
  (length (streams st),
   set_streams (λ h, h ++ [{| readable := true; queue := [] |}]) st).

(** The consumer goes away (connection closed or reset): the stream stops
    being readable, and from then on [enqueue] throws. *)
Definition close (controller : SSEController) (st : State) : State :=
  set_streams
    (alter (λ s, {| readable := false; queue := queue s |}) controller) st.

Definition nl : string := String (Ascii.ascii_of_nat 10) EmptyString.

(** The text [event: <name>\ndata: <json>\n\n]. *)
Definition sse_frame (name json : string) : string :=
  String.append "event: "
    (String.append name
       (String.append nl
          (String.append "data: " (String.append json (String.append nl nl))))).

Definition field {A : Type} (key : string) (f : A → JSON) (v : option A)
    : list (string * JSON) :=
  match v with
  | Some x => [(key, f x)]
  | None => []
  end.

(** The object [JSON.stringify] sees: absent properties are left out. *)
Definition Location_json (l : Location.t) : JSON :=
  JObject (field "lat" JNumber (Location.lat l)
           ++ field "lng" JNumber (Location.lng l)).

Definition BroadcastEvent_json (event : BroadcastEvent.t) : JSON :=
  JObject (field "profileId" JString (BroadcastEvent.profileId event)
           ++ field "location" Location_json (BroadcastEvent.location event)
           ++ [("timestamp", JString (BroadcastEvent.timestamp event))]
           ++ field "metadata" (λ m, m) (BroadcastEvent.metadata event)).

(** [c.json(body, status)] *)
Record Response : Type := mkResponse {
  status : nat;
  json : JSON;
}.

(** What the [start] and [cancel] callbacks of one stream close over. *)
Record Connection : Type := mkConnection {
  conn_channelId : string;
  conn_subs : SetRef;
  conn_controller : SSEController;
}.

Section Handlers.
Variable JSON_stringify : JSON → string.

Definition getOrCreateChannel (channelId : string) (st : State)
    : SetRef * State :=
  match channels st !! channelId with
  | Some subs => (subs, st)
  | None =>
      let '(subs, st) := Set_new st in
      (subs, set_channels (λ m, <[channelId := subs]> m) st)
  end.

(** The body of the fan-out loop:
    [try { controller.enqueue(encoded) } catch { subs.delete(controller) }]. *)
Definition push (subs : SetRef) (encoded : BufRef)
    (controller : SSEController) (st : State) : State :=
  match enqueue controller encoded st with
  | Normal st => st
  | Throw st => Set_delete subs controller st
  end.

(** The loop [for (const controller of subs) ...].  Iteration follows
    insertion order; the body removes at most the element being visited,
    so the elements visited are those present on entry. *)
Fixpoint fanout (subs : SetRef) (encoded : BufRef)
    (pending : list SSEController) (st : State) : State :=
  match pending with
  | [] => st
  | controller :: pending =>
      fanout subs encoded pending (push subs encoded controller st)
  end.

(** [app.post('/api/proximity/broadcast', ...)]; [now] is the reading of
    [new Date().toISOString()]. *)
Definition broadcast (body : BroadcastBody.t) (now : string) (st : State)
    : Response * State :=
  if negb (truthy truthy_string (BroadcastBody.channelId body))
     || negb (truthy truthy_string (BroadcastBody.profileId body))
  then
    ({| status := 400;
        json :=
          JObject
            [("error",
              JString
                (String.append (Runtime.quoted "channelId")
                   (String.append " and "
                      (String.append (Runtime.quoted "profileId")
                                     " are required"))))] |},
     st)
  else
  if negb (truthy truthy_number (BroadcastBody.location body ≫= Location.lat))
     || negb (truthy truthy_number (BroadcastBody.location body ≫= Location.lng))
  then
    ({| status := 400;
        json :=
          JObject
            [("error",
              JString (String.append (Runtime.quoted "location")
                                     " must have lat and lng"))] |},
     st)
  else
    let event :=
      {| BroadcastEvent.profileId := BroadcastBody.profileId body;
         BroadcastEvent.location := BroadcastBody.location body;
         BroadcastEvent.timestamp := now;
         BroadcastEvent.metadata := BroadcastBody.metadata body |} in
    let subs := BroadcastBody.channelId body ≫= (λ k, channels st !! k) in
    let subscriberCount := from_option (λ subs, Set_size subs st) 0 subs in
    let st :=
      match subs with
      | Some subs =>
          if bool_decide (0 < Set_size subs st)
          then
            let '(encoded, st) :=
              TextEncoder_encode
                (sse_frame "position"
                   (JSON_stringify (BroadcastEvent_json event))) st in
            fanout subs encoded (Set_values subs st) st
          else st
      | None => st
      end in
    ({| status := 200;
        json :=
          JObject
            ([("published", JBool true)]
             ++ field "channelId" JString (BroadcastBody.channelId body)
             ++ [("subscriberCount", JNumber (of_nat subscriberCount))]) |},
     st).

(** The [start] callback of the stream. *)
Definition start (channelId : string) (subs : SetRef)
    (controller : SSEController) (now : string) (st : State) : State :=
  let st := Set_add subs controller st in
  let '(welcomeMsg, st) :=
    TextEncoder_encode
      (sse_frame "connected"
         (JSON_stringify
            (JObject
               [("channelId", JString channelId);
                ("subscriberCount", JNumber (of_nat (Set_size subs st)));
                ("timestamp", JString now)]))) st in
  match enqueue controller welcomeMsg st with
  | Normal st => st
  | Throw st => st
  end.

(** The [cancel] callback of the stream.  Its parameter is whatever the
    runtime hands to [cancel]; the code takes it for the controller. *)
Definition cancel (channelId : string) (subs : SetRef)
    (controller : SSEController) (st : State) : State :=
  let st := Set_delete subs controller st in
  if bool_decide (Set_size subs st = 0)
  then set_channels (λ m, delete channelId m) st
  else st.

(** [app.get('/api/proximity/stream/:channelId', ...)]: the stream is
    constructed, which runs [start], before the handler returns. *)
Definition stream (channelId : string) (now : string) (st : State)
    : Connection * State :=
  let '(subs, st) := getOrCreateChannel channelId st in
  let '(controller, st) := ReadableStream_new st in
  let st := start channelId subs controller now st in
  ({| conn_channelId := channelId; conn_subs := subs;
      conn_controller := controller |},
   st).

(** [app.get('/api/proximity/channels', ...)]: the entries of the map with
    the size of each set.  The model does not keep the order of the map. *)
Definition channelList (st : State) : list (string * nat) :=
  (λ '(id, subs), (id, Set_size subs st)) <$> map_to_list (channels st).

Definition listChannels (st : State) : Response :=
  let channelList := channelList st in
  {| status := 200;
     json :=
       JObject
         [("channels",
           JArray
             ((λ '(id, n),
                 JObject [("channelId", JString id);
                          ("subscriberCount", JNumber (of_nat n))])
              <$> channelList));
          ("total", JNumber (of_nat (length channelList)))] |}.

(** *** Executions of the broadcast layer *)

Inductive Op : Type :=
| Subscribe (channelId : string) (now : string)
| Publish (body : BroadcastBody.t) (now : string)
| Cancel (conn : Connection) (controller : SSEController)
| Close (controller : SSEController).

Definition step (st : State) (op : Op) : State :=
  match op with
  | Subscribe channelId now => snd (stream channelId now st)
  | Publish body now => snd (broadcast body now st)
  | Cancel conn controller =>
      cancel (conn_channelId conn) (conn_subs conn) controller st
  | Close controller => close controller st
  end.

Definition run (ops : list Op) (st : State) : State := foldl step st ops.

(** *** Vocabulary of the properties *)

Definition reachable (st : State) : Prop := ∃ ops, st = run ops init.

(** Every registered set exists, and no set lists a controller twice. *)
Definition well_formed (st : State) : Prop :=
  (∀ id subs, channels st !! id = Some subs → subs < length (sets st))
  ∧ (∀ subs l, sets st !! subs = Some l → NoDup l).

(** No registered channel is without subscribers. *)
Definition no_empty_channel (st : State) : Prop :=
  ∀ id subs, channels st !! id = Some subs → Set_size subs st ≠ 0.

(** Whether [controller.enqueue] succeeds in the state. *)
Definition accepts (controller : SSEController) (st : State) : bool :=
  from_option readable false (streams st !! controller).

(** The request passes both guards of the publish handler. *)
Definition valid (body : BroadcastBody.t) : bool :=
  truthy truthy_string (BroadcastBody.channelId body)
  && truthy truthy_string (BroadcastBody.profileId body)
  && truthy truthy_number (BroadcastBody.location body ≫= Location.lat)
  && truthy truthy_number (BroadcastBody.location body ≫= Location.lng).

(** Every property the handler requires is there. *)
Definition present (body : BroadcastBody.t) : Prop :=
  is_Some (BroadcastBody.channelId body)
  ∧ is_Some (BroadcastBody.profileId body)
  ∧ is_Some (BroadcastBody.location body ≫= Location.lat)
  ∧ is_Some (BroadcastBody.location body ≫= Location.lng).

(** The frame the publish handler encodes for a request. *)
Definition position_frame (body : BroadcastBody.t) (now : string) : string :=
  sse_frame "position"
    (JSON_stringify
       (BroadcastEvent_json
          {| BroadcastEvent.profileId := BroadcastBody.profileId body;
             BroadcastEvent.location := BroadcastBody.location body;
             BroadcastEvent.timestamp := now;
             BroadcastEvent.metadata := BroadcastBody.metadata body |})).

(** The welcome text of a subscription that sees [subscriberCount]. *)
Definition welcome_frame (channelId : string) (subscriberCount : nat)
    (now : string) : string :=
  sse_frame "connected"
    (JSON_stringify
       (JObject [("channelId", JString channelId);
                 ("subscriberCount", JNumber (of_nat subscriberCount));
                 ("timestamp", JString now)])).

(** The answer [{ published: true, channelId, subscriberCount }]. *)
Definition published (channelId : string) (subscriberCount : nat) : Response :=
  {| status := 200;
     json := JObject [("published", JBool true);
                      ("channelId", JString channelId);
                      ("subscriberCount", JNumber (of_nat subscriberCount))] |}.

(** The chunks a stream has taken start with the buffer holding [text],
    and all later ones hold [position] frames. *)
Definition welcomed (controller : SSEController) (text : string)
    (st : State) : Prop :=
  ∃ s w rest,
    streams st !! controller = Some s
    ∧ queue s = w :: rest
    ∧ buffers st !! w = Some text
    ∧ Forall (λ r, ∃ json, buffers st !! r = Some (sse_frame "position" json))
             rest.

End Handlers.

End Broadcast.

(** ** Inputs to evaluate at, after the end-to-end tests *)

Module E2E.
Import JS Broadcast.

Definition berlin : Location.t :=
  {| Location.lat := Some (Num 52.52); Location.lng := Some (Num 13.405) |}.

(** 'broadcast publishes to a channel' *)
Definition broadcaster : BroadcastBody.t :=
  {| BroadcastBody.channelId := Some "e2e-test";
     BroadcastBody.profileId := Some "broadcaster-1";
     BroadcastBody.location := Some berlin;
     BroadcastBody.metadata :=
       Some (JObject [("role", JString "provider");
                      ("category", JString "test")]) |}.

(** 'SSE receives broadcast events in real-time' *)
Definition realtime_sender : BroadcastBody.t :=
  {| BroadcastBody.channelId := Some "e2e-realtime";
     BroadcastBody.profileId := Some "realtime-sender";
     BroadcastBody.location := Some berlin;
     BroadcastBody.metadata := None |}.

(** 'broadcast rejects missing location' *)
Definition missing_location : BroadcastBody.t :=
  {| BroadcastBody.channelId := Some "test-channel";
     BroadcastBody.profileId := Some "test";
     BroadcastBody.location := None;
     BroadcastBody.metadata := None |}.

Definition clock : string := "2026-01-01T00:00:00.000Z".

(** 'Nearby Filtering': a position and candidates around it.  [findNearby]
    is run with first-order stand-ins for the [Math] functions; they give
    the list handling numbers to work on, not geodesic distances. *)
Definition myPosition : GeoPoint.t :=
  {| GeoPoint.lat := Num 52.52; GeoPoint.lng := Num 13.405 |}.

Definition candidates : list ProfileLocation.t :=
  [ {| ProfileLocation.profileId := "far";
       ProfileLocation.location :=
         {| GeoPoint.lat := Num 52.57; GeoPoint.lng := Num 13.405 |} |};
    {| ProfileLocation.profileId := "mid";
       ProfileLocation.location :=
         {| GeoPoint.lat := Num 52.55; GeoPoint.lng := Num 13.405 |} |};
    {| ProfileLocation.profileId := "close";
       ProfileLocation.location :=
         {| GeoPoint.lat := Num 52.52; GeoPoint.lng := Num 13.415 |} |} ].

Definition findNearby :=
  Domain.findNearby (λ x, x) (λ _, Num 1) (λ x, x) (λ y _, y) (Num 180)
                    Runtime.Number_toString Runtime.Number_toFixed.

Definition stream := Broadcast.stream Runtime.JSON_stringify.
Definition broadcast := Broadcast.broadcast Runtime.JSON_stringify.
Definition run := Broadcast.run Runtime.JSON_stringify.

(** One open stream on the channel of [realtime_sender]. *)
Definition one_subscriber : State :=
  run [Subscribe "e2e-realtime" clock] init.

(** Two streams, the consumer of the first gone. *)
Definition one_gone_one_open : State :=
  run [Subscribe "e2e-realtime" clock; Subscribe "e2e-realtime" clock; Close 0]
      init.

(** A stream whose consumer went away, after a publish found it out. *)
Definition emptied_channel : State :=
  run [Subscribe "e2e-realtime" clock; Close 0; Publish realtime_sender clock]
      init.

End E2E.

(** ** index.ts: the stateless endpoints *)

(** The request bodies as the handlers read them: every property may be
    absent.  A point that came with the request is a [Location.t]. *)
Module CalculateBody.
Record t : Type := mk { from : option Location.t; to : option Location.t }.
End CalculateBody.

Module NearbyBody.
Record t : Type := mk {
  myPosition : option Location.t;
  candidates : option (list ProfileLocation.t);
  maxRadiusMeters : option JS.number;
}.
End NearbyBody.

Module ConsentBody.
Record t : Type := mk {
  action : option string;
  profileId : option string;
  locationTracking : option bool;
  bleDiscovery : option bool;
  consent : option LocationConsent.t;
}.
End ConsentBody.

Module Api.
Import JS Broadcast.

(** The point the distance functions read off a request object: a property
    that is absent reads [undefined], which arithmetic turns into [NaN]. *)
Definition GeoPoint_of (p : option Location.t) : GeoPoint.t :=
  {| GeoPoint.lat := default NaN (p ≫= Location.lat);
     GeoPoint.lng := default NaN (p ≫= Location.lng) |}.

Definition PresenceStatus_json (s : PresenceStatus) : JSON :=
  JString
    match s with
    | nearby => "nearby"
    | in_range => "in_range"
    | out_of_range => "out_of_range"
    | unknown => "unknown"
    end.

Definition GeoPoint_json (p : GeoPoint.t) : JSON :=
  JObject [("lat", JNumber (GeoPoint.lat p)); ("lng", JNumber (GeoPoint.lng p))].

Definition PresenceRecord_json (r : PresenceRecord.t) : JSON :=
  JObject
    [("profileId", JString (PresenceRecord.profileId r));
     ("location", GeoPoint_json (PresenceRecord.location r));
     ("distanceMeters", JNumber (PresenceRecord.distanceMeters r));
     ("distanceLabel", JString (PresenceRecord.distanceLabel r));
     ("status", PresenceStatus_json (PresenceRecord.status r))].

Definition LocationConsent_json (c : LocationConsent.t) : JSON :=
  JObject
    ([("profileId", JString (LocationConsent.profileId c));
      ("locationTracking", JBool (LocationConsent.locationTracking c));
      ("bleDiscovery", JBool (LocationConsent.bleDiscovery c));
      ("grantedAt", JString (LocationConsent.grantedAt c))]
     ++ field "revokedAt" JString (LocationConsent.revokedAt c)).

(** [c.json({ error: message }, 400)] *)
Definition bad_request (message : string) : Response :=
  {| status := 400; json := JObject [("error", JString message)] |}.

Section Stateless.
Variables Math_sin Math_cos Math_sqrt : number → number.
Variable Math_atan2 : number → number → number.
Variable Math_PI : number.
Variable Number_toString : number → string.
Variable Number_toFixed : number → nat → string.

(** [app.post('/api/proximity/calculate', ...)] *)
Definition calculate (body : CalculateBody.t) : Response :=
  if negb (truthy truthy_number (CalculateBody.from body ≫= Location.lat))
     || negb (truthy truthy_number (CalculateBody.from body ≫= Location.lng))
     || negb (truthy truthy_number (CalculateBody.to body ≫= Location.lat))
     || negb (truthy truthy_number (CalculateBody.to body ≫= Location.lng))
  then
    bad_request
      (String.append "Both "
         (String.append (Runtime.quoted "from")
            (String.append " and "
               (String.append (Runtime.quoted "to")
                              " must have lat and lng"))))
  else
    let distance :=
      Domain.calculateDistance Math_sin Math_cos Math_sqrt Math_atan2 Math_PI
        (GeoPoint_of (CalculateBody.from body))
        (GeoPoint_of (CalculateBody.to body)) in
    {| status := 200;
       json :=
         JObject
           (field "from" Location_json (CalculateBody.from body)
            ++ field "to" Location_json (CalculateBody.to body)
            ++ [("distanceMeters", JNumber (Math_round distance));
                ("distanceLabel",
                 JString (Domain.formatDistance Number_toString Number_toFixed
                                                distance));
                ("status",
                 PresenceStatus_json
                   (Domain.classifyDistance distance None None))]) |}.

(** [app.post('/api/proximity/nearby', ...)]; [candidates] is [None] when
    the property is not an array. *)
Definition nearby (body : NearbyBody.t) : Response :=
  if negb (truthy truthy_number (NearbyBody.myPosition body ≫= Location.lat))
     || negb (truthy truthy_number (NearbyBody.myPosition body ≫= Location.lng))
  then
    bad_request
      (String.append (Runtime.quoted "myPosition") " must have lat and lng")
  else
    match NearbyBody.candidates body with
    | None =>
        bad_request
          (String.append (Runtime.quoted "candidates") " must be an array")
    | Some candidates =>
        let nearby :=
          Domain.findNearby Math_sin Math_cos Math_sqrt Math_atan2 Math_PI
            Number_toString Number_toFixed
            (GeoPoint_of (NearbyBody.myPosition body)) candidates
            (Some (default (Num 5000) (NearbyBody.maxRadiusMeters body)))
            None in
        {| status := 200;
           json :=
             JObject
               [("nearby", JArray (PresenceRecord_json <$> nearby));
                ("count", JNumber (of_nat (length nearby)));
                ("totalCandidates", JNumber (of_nat (length candidates)));
                ("maxRadiusMeters",
                 JNumber (default (Num 5000) (NearbyBody.maxRadiusMeters body)))]
        |}
    end.
End Stateless.

(** [app.post('/api/proximity/consent', ...)]; [now] is the reading of
    [new Date().toISOString()]. *)
Definition consent (body : ConsentBody.t) (now : string) : Response :=
  if bool_decide (ConsentBody.action body = Some "create") then
    if negb (truthy truthy_string (ConsentBody.profileId body))
    then bad_request (String.append (Runtime.quoted "profileId") " is required")
    else
      let consent :=
        Domain.createConsent (default "" (ConsentBody.profileId body))
          (ConsentBody.locationTracking body) (ConsentBody.bleDiscovery body)
          now in
      {| status := 200;
         json :=
           JObject [("consent", LocationConsent_json consent);
                    ("valid", JBool (Domain.isConsentValid (Some consent)))] |}
  else if bool_decide (ConsentBody.action body = Some "validate") then
    match ConsentBody.consent body with
    | None =>
        bad_request
          (String.append (Runtime.quoted "consent")
                         " object is required for validation")
    | Some consent =>
        {| status := 200;
           json :=
             JObject [("valid", JBool (Domain.isConsentValid (Some consent)));
                      ("consent", LocationConsent_json consent)] |}
    end
  else if bool_decide (ConsentBody.action body = Some "revoke") then
    match ConsentBody.consent body with
    | None =>
        bad_request
          (String.append (Runtime.quoted "consent")
                         " object is required for revocation")
    | Some consent =>
        let revoked := Domain.revokeConsent consent now in
        {| status := 200;
           json :=
             JObject [("consent", LocationConsent_json revoked);
                      ("valid", JBool false)] |}
    end
  else
    bad_request
      (String.append "action must be "
         (String.append (Runtime.quoted "create")
            (String.append ", "
               (String.append (Runtime.quoted "validate")
                  (String.append ", or " (Runtime.quoted "revoke")))))).

(** Reading a property of a JSON object. *)
Definition JSON_get (key : string) (v : JSON) : option JSON :=
  match v with
  | JObject fields => snd <$> List.find (λ kv, String.eqb (fst kv) key) fields
  | _ => None
  end.

End Api.

(** ** Vocabulary of the further properties *)

Module Vocabulary.
Import JS Broadcast.

(** The order of the statuses from best to worst. *)
Definition rank (s : PresenceStatus) : nat :=
  match s with
  | nearby => 0
  | in_range => 1
  | out_of_range => 2
  | unknown => 3
  end.

(** The key of [a] is the number [k]. *)
Definition same_key {A : Type} (key : A → number) (k : Q) (a : A) : bool :=
  match key a with
  | Num q => Qeq_bool q k
  | NaN => false
  end.

(** A coordinate the handlers accept: there, and neither zero nor [NaN]. *)
Definition usable (v : option number) : Prop :=
  ∃ q, v = Some (Num q) ∧ ¬ (q == 0)%Q.

(** The record [findNearby] builds for a candidate. *)
Definition presence (calculateDistance : GeoPoint.t → GeoPoint.t → number)
    (formatDistance : number → string)
    (myPosition : GeoPoint.t) (maxRadiusMeters bleRangeMeters : number)
    (c : ProfileLocation.t) : PresenceRecord.t :=
  let dist := calculateDistance myPosition (ProfileLocation.location c) in
  {| PresenceRecord.profileId := ProfileLocation.profileId c;
     PresenceRecord.location := ProfileLocation.location c;
     PresenceRecord.distanceMeters := Math_round dist;
     PresenceRecord.distanceLabel := formatDistance dist;
     PresenceRecord.status :=
       Domain.classifyDistance dist (Some bleRangeMeters)
                               (Some maxRadiusMeters) |}.

(** The subscribers registered under a channel id. *)
Definition members (channelId : string) (st : State) : list nat :=
  from_option (λ subs, Set_values subs st) [] (channels st !! channelId).

(** Every controller in a set has its stream. *)
Definition allocated (st : State) : Prop :=
  ∀ subs l c, sets st !! subs = Some l → c ∈ l → c < length (streams st).

(** No two channel ids share a set. *)
Definition distinct_sets (st : State) : Prop :=
  ∀ id1 id2 subs,
    channels st !! id1 = Some subs → channels st !! id2 = Some subs → id1 = id2.

(** What every reachable state of the broadcast layer satisfies. *)
Definition consistent (st : State) : Prop :=
  well_formed st ∧ allocated st ∧ distinct_sets st.

End Vocabulary.

(** ** Further inputs to evaluate at *)

Module Samples.
Import JS Broadcast.

Definition munich : Location.t :=
  {| Location.lat := Some (Num 48.1351); Location.lng := Some (Num 11.582) |}.

(** 'Berlin → Munich' *)
Definition berlin_to_munich : CalculateBody.t :=
  {| CalculateBody.from := Some E2E.berlin; CalculateBody.to := Some munich |}.

(** The endpoints with the stand-ins of [E2E.findNearby] for [Math]. *)
Definition calculate :=
  Api.calculate (λ x, x) (λ _, Num 1) (λ x, x) (λ y _, y) (Num 180)
                Runtime.Number_toString Runtime.Number_toFixed.

Definition nearby :=
  Api.nearby (λ x, x) (λ _, Num 1) (λ x, x) (λ y _, y) (Num 180)
             Runtime.Number_toString Runtime.Number_toFixed.

Definition nearby_request : NearbyBody.t :=
  {| NearbyBody.myPosition := Some E2E.berlin;
     NearbyBody.candidates := Some E2E.candidates;
     NearbyBody.maxRadiusMeters := None |}.

(** A candidate whose distance under the stand-ins is 1274.2 metres. *)
Definition at_the_edge : ProfileLocation.t :=
  {| ProfileLocation.profileId := "edge";
     ProfileLocation.location :=
       {| GeoPoint.lat := Num 52.54; GeoPoint.lng := Num 13.405 |} |}.

Definition granted : LocationConsent.t :=
  Domain.createConsent "e2e-user" (Some true) None E2E.clock.

Definition revoke_request : ConsentBody.t :=
  {| ConsentBody.action := Some "revoke";
     ConsentBody.profileId := Some "e2e-user";
     ConsentBody.locationTracking := None;
     ConsentBody.bleDiscovery := None;
     ConsentBody.consent := Some granted |}.

End Samples.

(** * Properties *)

(** ** Numbers and sorting *)

Section NumberFacts.
Import JS.

Lemma le_Num_inv (a b : number) :
  le a b = true → ∃ x y, a = Num x ∧ b = Num y ∧ (x <= y)%Q.
Proof.
  destruct a as [|x], b as [|y]; simpl; try discriminate.
  intros H. exists x, y. by rewrite <- Qle_bool_iff.
Qed.

Lemma le_trans (a b c : number) :
  le a b = true → le b c = true → le a c = true.
Proof.
  intros (x & y & -> & -> & Hxy)%le_Num_inv (y' & z & Heq & -> & Hyz)%le_Num_inv.
  injection Heq as <-. simpl. apply Qle_bool_iff. lra.
Qed.

Lemma compare_sub_positive (x y : Q) :
  lt (Num 0) (sub (Num x) (Num y)) = true → le (Num y) (Num x) = true.
Proof.
  simpl. rewrite negb_true_iff. intros H. apply Qle_bool_iff.
  destruct (Qlt_le_dec x y) as [Hlt|Hle]; [|done].
  assert (Qle_bool (x - y) 0 = true) as Hc; [|congruence].
  apply Qle_bool_iff. lra.
Qed.

Lemma compare_sub_not_positive (x y : Q) :
  lt (Num 0) (sub (Num x) (Num y)) = false → le (Num x) (Num y) = true.
Proof.
  simpl. rewrite negb_false_iff. intros H%Qle_bool_iff. apply Qle_bool_iff. lra.
Qed.

Context {A : Type} (key : A → number).

Local Abbreviation by_key := (by_key key).
Local Abbreviation key_le := (key_le key).
Local Abbreviation has_key := (has_key key).

Lemma sort_insert_perm (compareFn : A → A → number) (x : A) (l : list A) :
  sort_insert compareFn x l ≡ₚ x :: l.
Proof.
  induction l as [|y l IH]; cbn [sort_insert]; [done|].
  destruct (JS.lt _ _); [|done].
  rewrite IH. apply Permutation_swap.
Qed.

Lemma Array_sort_perm (compareFn : A → A → number) (l : list A) :
  Array_sort compareFn l ≡ₚ l.
Proof.
  induction l as [|x l IH]; simpl; [done|].
  by rewrite sort_insert_perm, IH.
Qed.

Lemma sort_insert_sorted (x : A) (l : list A) :
  has_key x → Forall has_key l →
  StronglySorted key_le l → StronglySorted key_le (sort_insert by_key x l).
Proof.
  intros [qx Hx] Hl Hs. induction Hs as [|y l Hs IH Hy]; cbn [sort_insert].
  - repeat constructor.
  - apply Forall_cons in Hl as [[qy Hqy] Hl].
    unfold by_key at 1. rewrite Hx, Hqy.
    destruct (JS.lt _ _) eqn:Hc.
    + apply compare_sub_positive in Hc.
      constructor; [by apply IH|].
      rewrite (sort_insert_perm by_key x l). constructor; [|done].
      unfold key_le. by rewrite Hx, Hqy.
    + apply compare_sub_not_positive in Hc.
      assert (key_le x y) as Hxy by (unfold key_le; by rewrite Hx, Hqy).
      constructor; [by constructor|].
      constructor; [done|].
      eapply Forall_impl; [exact Hy|].
      intros z Hz. unfold key_le in *. by eapply le_trans.
Qed.

Lemma Array_sort_sorted (l : list A) :
  Forall has_key l → StronglySorted key_le (Array_sort by_key l).
Proof.
  induction l as [|x l IH]; simpl; intros Hl; [constructor|].
  apply Forall_cons in Hl as [Hx Hl].
  apply sort_insert_sorted; [done| |by apply IH].
  by rewrite Array_sort_perm.
Qed.

End NumberFacts.

(** ** Nearby filtering and consent records *)

Section DomainProperties.
Import JS Domain.

Variables Math_sin Math_cos Math_sqrt : number → number.
Variable Math_atan2 : number → number → number.
Variable Math_PI : number.
Variable Number_toString : number → string.
Variable Number_toFixed : number → nat → string.

Local Abbreviation calculateDistance :=
  (calculateDistance Math_sin Math_cos Math_sqrt Math_atan2 Math_PI).
Local Abbreviation formatDistance := (formatDistance Number_toString Number_toFixed).
Local Abbreviation findNearby :=
  (findNearby Math_sin Math_cos Math_sqrt Math_atan2 Math_PI
              Number_toString Number_toFixed).

Lemma filter_map_comm {A B : Type} (f : A → B) (p : B → bool) (l : list A) :
  List.filter p (List.map f l) = List.map f (List.filter (λ a, p (f a)) l).
Proof.
  induction l as [|a l IH]; simpl; [done|].
  destruct (p (f a)); simpl; by rewrite IH.
Qed.

Example Math_round_halves_up :
  Math_round (Num 2.5) = Num 3 ∧ Math_round (Num (-2.5)) = Num (-2)
  ∧ Math_round (Num 5000.4) = Num 5000 ∧ Math_round NaN = NaN.
Proof. vm_compute. done. Qed.

Example Array_sort_is_stable :
  Array_sort (by_key fst) [(Num 3, "a"); (Num 1, "b"); (Num 3, "c"); (Num 2, "d")]
  = [(Num 1, "b"); (Num 2, "d"); (Num 3, "a"); (Num 3, "c")].
Proof. vm_compute. done. Qed.

Example classifyDistance_thresholds :
  classifyDistance (Num 30) None None = nearby
  ∧ classifyDistance (Num 5000) None None = in_range
  ∧ classifyDistance (Num 5000.4) None None = out_of_range
  ∧ classifyDistance NaN None None = out_of_range.
Proof. vm_compute. done. Qed.

(** C9: [findNearby] returns exactly one record for each candidate whose
    rounded distance is within the radius; each record carries the
    candidate's profile id and location, the rounded distance, the label and
    the status; every record is within the radius, and the records come in
    non-decreasing order of [distanceMeters]. *)
Theorem findNearby_within_radius_sorted
    (myPosition : GeoPoint.t) (candidates : list ProfileLocation.t)
    (maxRadiusMeters bleRangeMeters : option number) :
  let maxRadius := default (Num 5000) maxRadiusMeters in
  let bleRange := default (Num 30) bleRangeMeters in
  let dist c := calculateDistance myPosition (ProfileLocation.location c) in
  let record c :=
    {| PresenceRecord.profileId := ProfileLocation.profileId c;
       PresenceRecord.location := ProfileLocation.location c;
       PresenceRecord.distanceMeters := Math_round (dist c);
       PresenceRecord.distanceLabel := formatDistance (dist c);
       PresenceRecord.status :=
         classifyDistance (dist c) (Some bleRange) (Some maxRadius) |} in
  let result := findNearby myPosition candidates maxRadiusMeters bleRangeMeters in
  result ≡ₚ List.map record
              (List.filter (λ c, le (Math_round (dist c)) maxRadius) candidates)
  ∧ Forall (λ r, le (PresenceRecord.distanceMeters r) maxRadius = true) result
  ∧ StronglySorted
      (λ a b, le (PresenceRecord.distanceMeters a)
                 (PresenceRecord.distanceMeters b) = true)
      result.
Proof.
  intros maxRadius bleRange dist record result.
  set (kept := List.filter (λ c, le (Math_round (dist c)) maxRadius) candidates).
  assert (result = Array_sort (by_key PresenceRecord.distanceMeters)
                     (List.map record kept)) as ->.
  { unfold result, Domain.findNearby. fold maxRadius bleRange.
    by rewrite filter_map_comm. }
  assert (Forall (λ r, le (PresenceRecord.distanceMeters r) maxRadius = true)
            (List.map record kept)) as Hwithin.
  { apply List.Forall_forall. intros r (c & <- & Hc)%in_map_iff.
    apply filter_In in Hc as [_ Hc]. exact Hc. }
  split; [apply Array_sort_perm|]. split.
  - by rewrite Array_sort_perm.
  - apply Array_sort_sorted. eapply Forall_impl; [exact Hwithin|].
    intros r Hr. apply le_Num_inv in Hr as (x & _ & Hx & _). by exists x.
Qed.

(** C10: [revokeConsent] sets [revokedAt], clears both flags and keeps the
    other fields, and the revoked record is never valid. *)
Theorem revokeConsent_invalidates (consent : LocationConsent.t) (now : string) :
  let revoked := revokeConsent consent now in
  LocationConsent.revokedAt revoked = Some now
  ∧ LocationConsent.locationTracking revoked = false
  ∧ LocationConsent.bleDiscovery revoked = false
  ∧ LocationConsent.profileId revoked = LocationConsent.profileId consent
  ∧ LocationConsent.grantedAt revoked = LocationConsent.grantedAt consent
  ∧ isConsentValid (Some revoked) = false.
Proof.
  repeat split. unfold isConsentValid. simpl. by destruct (truthy_string now).
Qed.

End DomainProperties.

(** ** The broadcast layer *)

Section BroadcastProperties.
Import JS Broadcast.

Variable JSON_stringify : JSON → string.

Local Abbreviation broadcast := (broadcast JSON_stringify).
Local Abbreviation start := (start JSON_stringify).
Local Abbreviation stream := (stream JSON_stringify).
Local Abbreviation step := (step JSON_stringify).
Local Abbreviation run := (run JSON_stringify).
Local Abbreviation reachable := (reachable JSON_stringify).
Local Abbreviation position_frame := (position_frame JSON_stringify).
Local Abbreviation welcome_frame := (welcome_frame JSON_stringify).

Lemma fanout_cons subs encoded controller pending st :
  fanout subs encoded (controller :: pending) st
  = fanout subs encoded pending (push subs encoded controller st).
Proof. reflexivity. Qed.

Lemma push_accepted subs encoded controller st s :
  streams st !! controller = Some s → readable s = true →
  push subs encoded controller st
  = {| channels := channels st; sets := sets st;
       streams :=
         <[controller := {| readable := true; queue := queue s ++ [encoded] |}]>
           (streams st);
       buffers := buffers st;
       enqueue_log := enqueue_log st ++ [(controller, encoded)] |}.
Proof.
  intros Hs Hr. unfold push, enqueue. simpl. by rewrite Hs, Hr.
Qed.

Lemma push_rejected subs encoded controller st :
  accepts controller st = false →
  push subs encoded controller st
  = {| channels := channels st;
       sets := alter (filter (λ x, x ≠ controller)) subs (sets st);
       streams := streams st; buffers := buffers st;
       enqueue_log := enqueue_log st ++ [(controller, encoded)] |}.
Proof.
  unfold accepts, push, enqueue. simpl.
  destruct (streams st !! controller) as [s|]; simpl; [intros ->|]; done.
Qed.

Lemma accepts_cases controller st :
  (∃ s, streams st !! controller = Some s ∧ readable s = true
        ∧ accepts controller st = true)
  ∨ accepts controller st = false.
Proof.
  unfold accepts. destruct (streams st !! controller) as [s|]; simpl; [|by right].
  destruct (readable s) eqn:Hr; [left; by exists s | by right].
Qed.

Lemma push_accepts subs encoded controller st c :
  accepts c (push subs encoded controller st) = accepts c st.
Proof.
  destruct (accepts_cases controller st) as [(s & Hs & Hr & _)|Hrej].
  - rewrite (push_accepted _ _ _ _ _ Hs Hr). unfold accepts. simpl.
    destruct (decide (controller = c)) as [->|Hne].
    + rewrite list_lookup_insert_eq by (by eapply lookup_lt_Some).
      by rewrite Hs.
    + by rewrite list_lookup_insert_ne.
  - by rewrite (push_rejected _ _ _ _ Hrej).
Qed.

Lemma push_frame subs encoded controller st :
  channels (push subs encoded controller st) = channels st
  ∧ buffers (push subs encoded controller st) = buffers st
  ∧ enqueue_log (push subs encoded controller st)
    = enqueue_log st ++ [(controller, encoded)]
  ∧ length (streams (push subs encoded controller st)) = length (streams st)
  ∧ length (sets (push subs encoded controller st)) = length (sets st).
Proof.
  destruct (accepts_cases controller st) as [(s & Hs & Hr & _)|Hrej].
  - rewrite (push_accepted _ _ _ _ _ Hs Hr). simpl.
    by rewrite length_insert.
  - rewrite (push_rejected _ _ _ _ Hrej). simpl.
    by rewrite length_alter.
Qed.

(** What the fan-out leaves alone, and the calls it makes. *)
Lemma fanout_frame subs encoded pending st :
  channels (fanout subs encoded pending st) = channels st
  ∧ buffers (fanout subs encoded pending st) = buffers st
  ∧ enqueue_log (fanout subs encoded pending st)
    = enqueue_log st ++ ((λ c, (c, encoded)) <$> pending)
  ∧ length (streams (fanout subs encoded pending st)) = length (streams st)
  ∧ length (sets (fanout subs encoded pending st)) = length (sets st)
  ∧ ∀ c, accepts c (fanout subs encoded pending st) = accepts c st.
Proof.
  revert st. induction pending as [|x pending IH]; intros st.
  { simpl. by rewrite app_nil_r. }
  rewrite fanout_cons.
  destruct (IH (push subs encoded x st)) as (Hc & Hb & Hl & Hn & Hm & Ha).
  destruct (push_frame subs encoded x st) as (Hc' & Hb' & Hl' & Hn' & Hm').
  rewrite Hc, Hb, Hl, Hn, Hm, Hc', Hb', Hl', Hn', Hm', <- app_assoc.
  repeat split. intros c. by rewrite Ha, push_accepts.
Qed.

(** The subscriber sets after the fan-out: the controllers visited whose
    stream rejected the chunk are gone from [subs], nothing else changed. *)
Lemma fanout_sets subs encoded pending st :
  sets (fanout subs encoded pending st)
  = alter (filter (λ x, x ∈ pending → accepts x st = true)) subs (sets st).
Proof.
  revert st. induction pending as [|x pending IH]; intros st.
  { simpl. symmetry. apply list_alter_id. intros l.
    induction l as [|y l IHl]; [done|].
    rewrite filter_cons_True; [by rewrite IHl|]. by intros ?%not_elem_of_nil. }
  rewrite fanout_cons, IH.
  destruct (accepts_cases x st) as [(s & Hs & Hr & Hacc)|Hrej].
  - assert (sets (push subs encoded x st) = sets st) as ->
      by (by rewrite (push_accepted _ _ _ _ _ Hs Hr)).
    apply list_alter_ext; [|done]. intros l _.
    apply list_filter_iff. intros y. rewrite push_accepts, elem_of_cons.
    split; [|by auto]. intros H [->|Hy]; auto.
  - assert (sets (push subs encoded x st)
            = alter (filter (λ y, y ≠ x)) subs (sets st)) as ->
      by (by rewrite (push_rejected _ _ _ _ Hrej)).
    rewrite list_alter_alter_eq.
    apply list_alter_ext; [|done]. intros l _. simpl.
    rewrite list_filter_filter.
    apply list_filter_iff. intros y. rewrite push_accepts, elem_of_cons.
    split.
    + intros [H Hne] [->|Hy]; [done|auto].
    + intros H. split; [auto|]. intros ->.
      rewrite H in Hrej; [done|by left].
Qed.

(** The streams after the fan-out: a readable stream has taken the chunk
    once for each time its controller was visited. *)
Lemma fanout_streams subs encoded pending st c :
  streams (fanout subs encoded pending st) !! c
  = (λ s, if readable s
          then {| readable := true;
                  queue := queue s
                           ++ replicate (length (filter (λ x, x = c) pending))
                                        encoded |}
          else s) <$> streams st !! c.
Proof.
  revert st. induction pending as [|x pending IH]; intros st.
  { simpl. destruct (streams st !! c) as [[[] q]|]; simpl; [|done..].
    by rewrite app_nil_r. }
  rewrite fanout_cons, IH.
  destruct (accepts_cases x st) as [(s & Hs & Hr & _)|Hrej].
  - rewrite (push_accepted _ _ _ _ _ Hs Hr). simpl.
    destruct (decide (x = c)) as [->|Hne].
    + rewrite list_lookup_insert_eq by (by eapply lookup_lt_Some).
      rewrite Hs. simpl. rewrite Hr, filter_cons_True by done. simpl.
      by rewrite <- app_assoc.
    + rewrite list_lookup_insert_ne by done.
      by rewrite filter_cons_False.
  - rewrite (push_rejected _ _ _ _ Hrej). simpl.
    destruct (decide (x = c)) as [->|Hne].
    + unfold accepts in Hrej.
      destruct (streams st !! c) as [[r q]|]; simpl in *; [|done].
      by rewrite Hrej.
    + by rewrite filter_cons_False.
Qed.

(** *** Requests that pass validation, and well-formed stores *)

Lemma broadcast_invalid body now st :
  valid body = false →
  status (fst (broadcast body now st)) = 400 ∧ snd (broadcast body now st) = st.
Proof.
  unfold valid, Broadcast.broadcast. intros H.
  destruct (truthy truthy_string (BroadcastBody.channelId body)); [|done].
  destruct (truthy truthy_string (BroadcastBody.profileId body)); [|done].
  destruct (truthy truthy_number (BroadcastBody.location body ≫= Location.lat)); [|done].
  destruct (truthy truthy_number (BroadcastBody.location body ≫= Location.lng)); done.
Qed.

Lemma valid_channelId body :
  valid body = true → ∃ channelId, BroadcastBody.channelId body = Some channelId.
Proof.
  unfold valid. destruct (BroadcastBody.channelId body) as [c|]; [by exists c|done].
Qed.

Lemma broadcast_valid body now st channelId :
  valid body = true → BroadcastBody.channelId body = Some channelId →
  broadcast body now st
  = (published channelId
       (from_option (λ subs, Set_size subs st) 0 (channels st !! channelId)),
     match channels st !! channelId with
     | Some subs =>
         if bool_decide (0 < Set_size subs st)
         then fanout subs (length (buffers st)) (Set_values subs st)
                (set_buffers (λ b, b ++ [position_frame body now]) st)
         else st
     | None => st
     end).
Proof.
  unfold valid, Broadcast.broadcast. intros H Hc. rewrite Hc in *. 
  destruct (truthy truthy_string (Some channelId)); [|done].
  destruct (truthy truthy_string (BroadcastBody.profileId body)); [|done].
  destruct (truthy truthy_number (BroadcastBody.location body ≫= Location.lat)); [|done].
  destruct (truthy truthy_number (BroadcastBody.location body ≫= Location.lng)); [|done].
  simpl. done.
Qed.

Lemma well_formed_frame st st' :
  channels st' = channels st → sets st' = sets st →
  well_formed st → well_formed st'.
Proof. unfold well_formed. by intros -> ->. Qed.

Lemma well_formed_alter (f : list nat → list nat) subs st :
  (∀ l, NoDup l → NoDup (f l)) →
  well_formed st → well_formed (set_sets (alter f subs) st).
Proof.
  intros Hf [Hc Hs]. split; simpl.
  - intros id r Hr. rewrite length_alter. eauto.
  - intros r l. rewrite list_lookup_alter. case_decide as Heq.
    + destruct (sets st !! subs) as [l0|] eqn:Hl0; simpl; [|done].
      intros [= <-]. eauto.
    + eauto.
Qed.

Lemma well_formed_Set_add subs controller st :
  well_formed st → well_formed (Set_add subs controller st).
Proof.
  apply well_formed_alter. intros l Hl. case_bool_decide as Hin; [done|].
  apply NoDup_app. split; [done|]. split; [|apply NoDup_singleton].
  intros x Hx ->%list_elem_of_singleton. done.
Qed.

Lemma well_formed_Set_delete subs controller st :
  well_formed st → well_formed (Set_delete subs controller st).
Proof. apply well_formed_alter. intros l Hl. by apply NoDup_filter. Qed.

Lemma well_formed_fanout subs encoded pending st :
  well_formed st → well_formed (fanout subs encoded pending st).
Proof.
  intros Hwf.
  pose proof (fanout_frame subs encoded pending st) as (Hc & _).
  pose proof (fanout_sets subs encoded pending st) as Hs.
  eapply (well_formed_frame
            (set_sets
               (alter (filter (λ x, x ∈ pending → accepts x st = true)) subs)
               st));
    [done..|].
  apply well_formed_alter; [|done]. intros l Hl. by apply NoDup_filter.
Qed.

Lemma well_formed_getOrCreateChannel channelId st :
  well_formed st →
  well_formed (snd (getOrCreateChannel channelId st))
  ∧ channels (snd (getOrCreateChannel channelId st)) !! channelId
    = Some (fst (getOrCreateChannel channelId st)).
Proof.
  intros [Hc Hs]. unfold getOrCreateChannel.
  destruct (channels st !! channelId) as [subs|] eqn:Hsubs; simpl; [done|].
  split; [|by rewrite lookup_insert_eq].
  split; simpl.
  - intros id r. rewrite length_app. simpl. rewrite lookup_insert.
    case_decide; [intros [= <-]; lia|]. intros ?%Hc. lia.
  - intros r l. rewrite lookup_app. destruct (sets st !! r) eqn:Hr.
    + intros [= <-]. eauto.
    + destruct (r - length (sets st)) as [|k]; simpl; [|done].
      intros [= <-]. constructor.
Qed.

Lemma getOrCreateChannel_frame channelId st :
  streams (snd (getOrCreateChannel channelId st)) = streams st
  ∧ buffers (snd (getOrCreateChannel channelId st)) = buffers st
  ∧ enqueue_log (snd (getOrCreateChannel channelId st)) = enqueue_log st.
Proof. unfold getOrCreateChannel. by destruct (channels st !! channelId). Qed.

(** The subscribe handler, step by step. *)
Lemma stream_eq channelId now st :
  let subs := fst (getOrCreateChannel channelId st) in
  let st0 := snd (getOrCreateChannel channelId st) in
  let controller := length (streams st) in
  let st1 := Set_add subs controller st0 in
  stream channelId now st
  = ({| conn_channelId := channelId; conn_subs := subs; conn_controller := controller |},
     {| channels := channels st0;
        sets := sets st1;
        streams := streams st ++ [{| readable := true; queue := [length (buffers st)] |}];
        buffers := buffers st ++ [welcome_frame channelId (Set_size subs st1) now];
        enqueue_log := enqueue_log st ++ [(controller, length (buffers st))] |}).
Proof.
  intros subs st0 controller st1. unfold Broadcast.stream.
  destruct (getOrCreateChannel_frame channelId st) as (Hst & Hb & Hl).
  fold subs st0 in Hst, Hb, Hl.
  destruct (getOrCreateChannel channelId st) as [subs' st0'] eqn:Hg.
  simpl in subs, st0. subst subs st0.
  unfold ReadableStream_new, Broadcast.start, TextEncoder_encode, enqueue,
    welcome_frame, Set_add, Set_size, Set_values,
    set_sets, set_streams, set_buffers, set_enqueue_log.
  cbn. rewrite Hst, Hb, Hl.
  rewrite lookup_app_r by done. rewrite Nat.sub_diag. simpl.
  rewrite insert_app_r_alt by done. rewrite Nat.sub_diag. simpl.
  done.
Qed.

Lemma well_formed_step op st : well_formed st → well_formed (step st op).
Proof.
  intros Hwf. destruct op as [channelId now|body now|conn controller|controller]; simpl.
  - rewrite stream_eq. simpl.
    destruct (well_formed_getOrCreateChannel channelId st Hwf) as [Hwf0 _].
    eapply well_formed_frame;
      [| |apply (well_formed_Set_add (fst (getOrCreateChannel channelId st))
                   (length (streams st)) _ Hwf0)];
      done.
  - destruct (valid body) eqn:Hv.
    + destruct (valid_channelId body Hv) as [channelId Hc].
      rewrite (broadcast_valid body now st channelId Hv Hc). simpl.
      destruct (channels st !! channelId) as [subs|]; [|done].
      case_bool_decide; [|done].
      apply well_formed_fanout. by eapply well_formed_frame.
    + by destruct (broadcast_invalid body now st Hv) as [_ ->].
  - unfold cancel.
    pose proof (well_formed_Set_delete (conn_subs conn) controller st Hwf) as Hd.
    case_bool_decide; [|done].
    destruct Hd as [Hc Hs]. split; [|done]. simpl.
    intros id subs [_ Hl]%lookup_delete_Some. rewrite length_alter. by eapply Hwf.
  - by eapply well_formed_frame.
Qed.

Lemma well_formed_run ops st : well_formed st → well_formed (run ops st).
Proof.
  revert st. induction ops as [|op ops IH]; intros st Hwf; [done|].
  simpl. apply IH. by apply well_formed_step.
Qed.

Lemma reachable_well_formed st : reachable st → well_formed st.
Proof.
  intros [ops ->]. apply well_formed_run. split.
  - intros id subs. unfold init. simpl. by rewrite lookup_empty.
  - intros subs l. unfold init. simpl. by rewrite lookup_nil.
Qed.

(** *** Publishing *)

Lemma filter_guarded (P : nat → Prop) `{!∀ x, Decision (P x)} (l : list nat) :
  filter (λ x, x ∈ l → P x) l = filter P l.
Proof.
  assert (∀ k : list nat, (∀ x, x ∈ k → x ∈ l) →
            filter (λ x, x ∈ l → P x) k = filter P k) as Hsub.
  { induction k as [|y k IH]; intros Hk; [done|].
    rewrite !filter_cons, IH by (intros x Hx; apply Hk; by right).
    apply decide_ext. split; [|by auto]. intros Hy. apply Hy, Hk. by left. }
  by apply Hsub.
Qed.

Lemma Set_values_nil subs st : Set_size subs st = 0 → Set_values subs st = [].
Proof. unfold Set_size. by intros ?%nil_length_inv. Qed.

(** The subscriber set of the channel after a valid publish. *)
Lemma broadcast_Set_values body now st channelId subs :
  valid body = true → BroadcastBody.channelId body = Some channelId →
  channels st !! channelId = Some subs →
  Set_values subs (snd (broadcast body now st))
  = filter (λ c, accepts c st = true) (Set_values subs st).
Proof.
  intros Hv Hc Hsubs. rewrite (broadcast_valid body now st channelId Hv Hc), Hsubs.
  simpl. case_bool_decide as Hn.
  - unfold Set_values at 1. rewrite fanout_sets. simpl.
    rewrite list_lookup_alter_eq.
    unfold Set_values in *. unfold Set_size, Set_values in Hn.
    destruct (sets st !! subs) as [l|]; simpl in *; [|done].
    apply (filter_guarded (λ c, accepts c st = true)).
  - rewrite Set_values_nil by lia. done.
Qed.

Lemma channelList_lookup st id n :
  (id, n) ∈ channelList st →
  ∃ subs, channels st !! id = Some subs ∧ n = Set_size subs st.
Proof.
  unfold channelList. intros ([id' subs] & [= -> ->] & Hin)%list_elem_of_fmap.
  apply elem_of_map_to_list in Hin. by exists subs.
Qed.

(** C3: a publish to a channel id that has no registry entry changes
    nothing: no buffer is encoded, nothing is enqueued, no entry is created,
    so the channel list still has no entry for the id; and when the request
    passes validation the answer is [published: true] with
    [subscriberCount] 0. *)
Theorem publish_unknown_channel_noop
    (body : BroadcastBody.t) (now : string) (st : State) (channelId : string) :
  BroadcastBody.channelId body = Some channelId →
  channels st !! channelId = None →
  snd (broadcast body now st) = st
  ∧ (valid body = true → fst (broadcast body now st) = published channelId 0)
  ∧ ∀ n, (channelId, n) ∉ channelList (snd (broadcast body now st)).
Proof.
  intros Hc Hnone.
  assert (snd (broadcast body now st) = st) as Hsame.
  { destruct (valid body) eqn:Hv.
    - by rewrite (broadcast_valid body now st channelId Hv Hc), Hnone.
    - by destruct (broadcast_invalid body now st Hv). }
  split; [done|]. split.
  - intros Hv. by rewrite (broadcast_valid body now st channelId Hv Hc), Hnone.
  - rewrite Hsame. intros n (subs & Hsubs & _)%channelList_lookup. congruence.
Qed.

(** C5: the [subscriberCount] in the answer is the size of the channel's
    set when it was looked up, whatever the fan-out then removes: afterwards
    the set holds only the controllers whose stream took the chunk. *)
Theorem publish_reports_count_at_lookup
    (body : BroadcastBody.t) (now : string) (st : State)
    (channelId : string) (subs : nat) :
  valid body = true →
  BroadcastBody.channelId body = Some channelId →
  channels st !! channelId = Some subs →
  fst (broadcast body now st) = published channelId (Set_size subs st)
  ∧ Set_values subs (snd (broadcast body now st))
    = filter (λ c, accepts c st = true) (Set_values subs st).
Proof.
  intros Hv Hc Hsubs. split; [|by eapply broadcast_Set_values].
  by rewrite (broadcast_valid body now st channelId Hv Hc), Hsubs.
Qed.

Lemma filter_eq_absent (l : list nat) (c : nat) :
  c ∉ l → filter (λ x, x = c) l = [].
Proof.
  induction l as [|y l IH]; [done|].
  intros [Hne Hl]%not_elem_of_cons.
  rewrite filter_cons_False by done. auto.
Qed.

Lemma filter_eq_NoDup (l : list nat) (c : nat) :
  NoDup l → c ∈ l → filter (λ x, x = c) l = [c].
Proof.
  induction 1 as [|y l Hy Hl IH]; [by intros ?%not_elem_of_nil|].
  intros [->|Hc]%elem_of_cons.
  - rewrite filter_cons_True by done. by rewrite filter_eq_absent.
  - rewrite filter_cons_False by (intros ->; done). auto.
Qed.

Lemma pushes_filter (encoded : nat) (l : list nat) (c : nat) :
  filter (λ p, p.1 = c) ((λ x, (x, encoded)) <$> l)
  = (λ x, (x, encoded)) <$> filter (λ x, x = c) l.
Proof.
  induction l as [|y l IH]; [done|].
  rewrite fmap_cons, !filter_cons. simpl.
  destruct (decide (y = c)); by rewrite IH.
Qed.

(** The streams after a valid publish to a registered channel. *)
Lemma broadcast_streams body now st channelId subs c s :
  valid body = true → BroadcastBody.channelId body = Some channelId →
  channels st !! channelId = Some subs →
  streams st !! c = Some s → readable s = true →
  streams (snd (broadcast body now st)) !! c
  = Some {| readable := true;
            queue := queue s
                     ++ replicate
                          (length (filter (λ x, x = c) (Set_values subs st)))
                          (length (buffers st)) |}.
Proof.
  intros Hv Hc Hsubs Hs Hr. rewrite (broadcast_valid body now st channelId Hv Hc), Hsubs.
  simpl. case_bool_decide as Hn.
  - rewrite fanout_streams. simpl. rewrite Hs. simpl. by rewrite Hr.
  - rewrite Set_values_nil by lia. simpl. rewrite app_nil_r, Hs.
    destruct s as [r q]. simpl in *. by rewrite Hr.
Qed.

(** What a valid publish to a registered, non-empty channel encodes and
    enqueues. *)
Lemma broadcast_effects body now st channelId subs :
  valid body = true → BroadcastBody.channelId body = Some channelId →
  channels st !! channelId = Some subs → Set_values subs st ≠ [] →
  buffers (snd (broadcast body now st)) = buffers st ++ [position_frame body now]
  ∧ enqueue_log (snd (broadcast body now st))
    = enqueue_log st ++ ((λ c, (c, length (buffers st))) <$> Set_values subs st).
Proof.
  intros Hv Hc Hsubs Hne. rewrite (broadcast_valid body now st channelId Hv Hc), Hsubs.
  simpl. rewrite bool_decide_true.
  - by destruct (fanout_frame subs (length (buffers st)) (Set_values subs st)
                   (set_buffers (λ b, b ++ [position_frame body now]) st))
      as (_ & -> & -> & _).
  - unfold Set_size. destruct (Set_values subs st); simpl; [done|lia].
Qed.

Lemma broadcast_empty_set body now st channelId subs :
  BroadcastBody.channelId body = Some channelId →
  channels st !! channelId = Some subs → Set_values subs st = [] →
  snd (broadcast body now st) = st.
Proof.
  intros Hc Hsubs Hnil. destruct (valid body) eqn:Hv.
  - rewrite (broadcast_valid body now st channelId Hv Hc), Hsubs. simpl.
    unfold Set_size. by rewrite Hnil.
  - by destruct (broadcast_invalid body now st Hv).
Qed.

Lemma reachable_NoDup st subs : reachable st → NoDup (Set_values subs st).
Proof.
  intros [_ Hs]%reachable_well_formed. unfold Set_values.
  destruct (sets st !! subs) as [l|] eqn:Hl; simpl; [eauto|constructor].
Qed.

(** C6: when the stream of a subscriber rejects the chunk, the subscriber
    leaves the channel's set and nobody else does; every subscriber whose
    stream is readable takes the chunk, once, wherever the rejecting ones
    stand in the set; and the publisher is answered 200 with
    [published: true] all the same. *)
Theorem rejected_push_removes_subscriber_silently
    (body : BroadcastBody.t) (now : string) (st : State)
    (channelId : string) (subs : nat) :
  reachable st →
  valid body = true →
  BroadcastBody.channelId body = Some channelId →
  channels st !! channelId = Some subs →
  let st' := snd (broadcast body now st) in
  let members := Set_values subs st in
  Set_values subs st' = filter (λ c, accepts c st = true) members
  ∧ (∀ c, c ∈ members → accepts c st = false → c ∉ Set_values subs st')
  ∧ (∀ c s, c ∈ members → streams st !! c = Some s → readable s = true →
       c ∈ Set_values subs st'
       ∧ streams st' !! c
         = Some {| readable := true; queue := queue s ++ [length (buffers st)] |}
       ∧ buffers st' !! length (buffers st) = Some (position_frame body now))
  ∧ fst (broadcast body now st) = published channelId (length members).
Proof.
  intros Hreach Hv Hc Hsubs st' members.
  pose proof (broadcast_Set_values body now st channelId subs Hv Hc Hsubs) as Hset.
  fold st' members in Hset.
  split; [done|]. split; [|split].
  - intros c _ Hrej. rewrite Hset, list_elem_of_filter. intros [Hacc _]. congruence.
  - intros c s Hin Hs Hr. split; [|split].
    + rewrite Hset. apply list_elem_of_filter. split; [|done].
      unfold accepts. by rewrite Hs.
    + unfold st'. rewrite (broadcast_streams body now st channelId subs c s) by done.
      fold members. rewrite filter_eq_NoDup; [done| |done].
      by apply reachable_NoDup.
    + assert (members ≠ []) as Hne.
      { intros Hnil. rewrite Hnil in Hin. by apply not_elem_of_nil in Hin. }
      destruct (broadcast_effects body now st channelId subs Hv Hc Hsubs Hne) as [Hb _].
      unfold st'. rewrite Hb. by apply list_lookup_middle.
  - by rewrite (broadcast_valid body now st channelId Hv Hc), Hsubs.
Qed.

(** C4, amended: for a valid publish to a registered channel whose set is
    not empty, the event is encoded once, into one new buffer, and the
    calls to [enqueue] are one per member of the set, each with that
    buffer; when the set is empty nothing is encoded and nothing pushed. *)
Theorem publish_encodes_once_and_pushes_once_each
    (body : BroadcastBody.t) (now : string) (st : State)
    (channelId : string) (subs : nat) :
  reachable st →
  valid body = true →
  BroadcastBody.channelId body = Some channelId →
  channels st !! channelId = Some subs →
  let st' := snd (broadcast body now st) in
  let members := Set_values subs st in
  let encoded := length (buffers st) in
  (members ≠ [] →
     buffers st' = buffers st ++ [position_frame body now]
     ∧ (∃ pushes,
          enqueue_log st' = enqueue_log st ++ pushes
          ∧ (∀ c, c ∈ members → filter (λ p, p.1 = c) pushes = [(c, encoded)])
          ∧ (∀ c, c ∉ members → filter (λ p, p.1 = c) pushes = [])))
  ∧ (members = [] → st' = st).
Proof.
  intros Hreach Hv Hc Hsubs st' members encoded. split.
  - intros Hne.
    destruct (broadcast_effects body now st channelId subs Hv Hc Hsubs Hne) as [Hb Hl].
    split; [done|]. eexists. split; [exact Hl|]. split.
    + intros c Hin. rewrite pushes_filter, filter_eq_NoDup; [done| |done].
      by apply reachable_NoDup.
    + intros c Hin. by rewrite pushes_filter, filter_eq_absent.
  - intros Hnil. by eapply broadcast_empty_set.
Qed.

(** *** Subscribing *)

(** A [position] frame is never a [connected] frame. *)
Lemma position_not_connected (json json' : string) :
  sse_frame "position" json ≠ sse_frame "connected" json'.
Proof. unfold sse_frame. simpl. discriminate. Qed.

Lemma welcomed_grow controller text st st' s' extra :
  (∀ r x, buffers st !! r = Some x → buffers st' !! r = Some x) →
  (∀ s, streams st !! controller = Some s →
        streams st' !! controller = Some s' ∧ queue s' = queue s ++ extra) →
  Forall (λ r, ∃ json, buffers st' !! r = Some (sse_frame "position" json)) extra →
  welcomed controller text st → welcomed controller text st'.
Proof.
  intros Hb Hs He (s & w & rest & Hlook & Hq & Hw & Hrest).
  destruct (Hs s Hlook) as [Hlook' Hq'].
  exists s', w, (rest ++ extra). split; [done|]. split.
  { by rewrite Hq', Hq. }
  split; [by apply Hb|]. apply Forall_app. split; [|done].
  eapply Forall_impl; [exact Hrest|]. intros r [json Hr]. exists json. by apply Hb.
Qed.

Lemma welcomed_step op controller text st :
  welcomed controller text st → welcomed controller text (step st op).
Proof.
  intros Hw. pose proof Hw as (s & w & rest & Hlook & _).
  destruct op as [channelId now|body now|conn c|c]; simpl.
  - rewrite stream_eq. simpl.
    eapply (welcomed_grow _ _ st _ s []); [| |constructor|done]; simpl.
    + intros r x Hr. by apply lookup_app_l_Some.
    + intros s0 Hs0. rewrite app_nil_r. split; [|congruence].
      rewrite Hlook in Hs0. injection Hs0 as <-. by apply lookup_app_l_Some.
  - destruct (valid body) eqn:Hv;
      [|by destruct (broadcast_invalid body now st Hv) as [_ ->]].
    destruct (valid_channelId body Hv) as [channelId Hc].
    rewrite (broadcast_valid body now st channelId Hv Hc). simpl.
    destruct (channels st !! channelId) as [subs|]; [|done].
    case_bool_decide; [|done].
    set (stb := set_buffers (λ b, b ++ [position_frame body now]) st).
    set (n := length (filter (λ x, x = controller) (Set_values subs st))).
    destruct (fanout_frame subs (length (buffers st)) (Set_values subs st) stb)
      as (_ & Hb & _).
    eapply (welcomed_grow _ _ st _
              (if readable s
               then {| readable := true;
                       queue := queue s ++ replicate n (length (buffers st)) |}
               else s)
              (if readable s then replicate n (length (buffers st)) else [])).
    + intros r x Hr. rewrite Hb. simpl. by apply lookup_app_l_Some.
    + intros s0 Hs0. rewrite Hlook in Hs0. injection Hs0 as <-.
      rewrite fanout_streams. simpl. rewrite Hlook. simpl.
      split; [done|]. destruct (readable s); [done|by rewrite app_nil_r].
    + destruct (readable s); [|constructor].
      apply Forall_replicate. rewrite Hb. simpl.
      eexists. by apply list_lookup_middle.
    + done.
  - unfold cancel. eapply (welcomed_grow _ _ st _ s []); [| |constructor|done].
    + intros r x Hr. by case_bool_decide.
    + intros s0 Hs0. rewrite app_nil_r. split; [|congruence].
      rewrite Hlook in Hs0. injection Hs0 as <-. by case_bool_decide.
  - eapply (welcomed_grow _ _ st _
              (if decide (c = controller)
               then {| readable := false; queue := queue s |} else s) []);
      [done| |constructor|done].
    intros s0 Hs0. rewrite Hlook in Hs0. injection Hs0 as <-. simpl.
    rewrite list_lookup_alter, app_nil_r.
    case_decide as Heq; [subst c; rewrite Hlook|]; by split.
Qed.

Lemma welcomed_run ops controller text st :
  welcomed controller text st → welcomed controller text (run ops st).
Proof.
  revert st. induction ops as [|op ops IH]; intros st Hw; [done|].
  simpl. apply IH. by apply welcomed_step.
Qed.

Lemma Set_add_elem subs controller st :
  subs < length (sets st) → controller ∈ Set_values subs (Set_add subs controller st).
Proof.
  intros [l Hl]%lookup_lt_is_Some. unfold Set_values, Set_add. simpl.
  rewrite list_lookup_alter_eq, Hl. simpl.
  case_bool_decide; [done|]. apply elem_of_app. right. by left.
Qed.

(** C7: a subscription registers its controller in the set of the
    requested channel and enqueues the welcome frame first: event
    [connected], with the requested channel id, the size of the set with
    the new controller in it (so at least 1) and the timestamp.  Whatever
    happens afterwards, the chunks of that stream are this frame followed
    by [position] frames only, none of which is a [connected] frame. *)
Theorem subscription_welcome_first
    (channelId now : string) (st : State) (ops : list Op) :
  reachable st →
  let conn := fst (stream channelId now st) in
  let st1 := snd (stream channelId now st) in
  let subscriberCount := Set_size (conn_subs conn) st1 in
  let later := run ops st1 in
  channels st1 !! channelId = Some (conn_subs conn)
  ∧ conn_controller conn ∈ Set_values (conn_subs conn) st1
  ∧ 1 ≤ subscriberCount
  ∧ ∃ s w rest,
      streams later !! conn_controller conn = Some s
      ∧ queue s = w :: rest
      ∧ buffers later !! w = Some (welcome_frame channelId subscriberCount now)
      ∧ Forall (λ r, ∃ text, buffers later !! r = Some text
                     ∧ (∃ json, text = sse_frame "position" json)
                     ∧ (∀ json, text ≠ sse_frame "connected" json)) rest.
Proof.
  intros Hreach conn st1 subscriberCount later.
  pose proof (reachable_well_formed st Hreach) as Hwf.
  destruct (well_formed_getOrCreateChannel channelId st Hwf) as [[Hc0 _] Hch].
  pose proof (stream_eq channelId now st) as Heq. simpl in Heq.
  assert (conn_subs conn = fst (getOrCreateChannel channelId st)) as Hsubs
    by (unfold conn; by rewrite Heq).
  assert (conn_controller conn = length (streams st)) as Hctl
    by (unfold conn; by rewrite Heq).
  assert (conn_controller conn ∈ Set_values (conn_subs conn) st1) as Hin.
  { rewrite Hsubs, Hctl. unfold st1. rewrite Heq. simpl.
    apply (Set_add_elem _ _ (snd (getOrCreateChannel channelId st))).
    by eapply Hc0. }
  split; [by unfold st1; rewrite Heq, Hsubs|].
  split; [done|]. split.
  { unfold subscriberCount, Set_size. destruct (Set_values _ _); simpl; [|lia].
    by apply not_elem_of_nil in Hin. }
  assert (welcomed (conn_controller conn)
            (welcome_frame channelId subscriberCount now) later) as Hw.
  { apply welcomed_run.
    exists {| readable := true; queue := [length (buffers st)] |},
           (length (buffers st)), [].
    unfold subscriberCount. rewrite Hsubs, Hctl. unfold st1. rewrite Heq. simpl.
    split; [by apply list_lookup_middle|]. split; [done|].
    split; [|constructor]. by apply list_lookup_middle. }
  destruct Hw as (s & w & rest & Hs & Hq & Hb & Hrest).
  exists s, w, rest. repeat split; try done.
  eapply Forall_impl; [exact Hrest|]. intros r [json Hr].
  exists (sse_frame "position" json). split; [done|]. split; [by exists json|].
  intros json'. apply position_not_connected.
Qed.

(** *** Where the handlers stop short *)

Lemma broadcast_status body now st :
  status (fst (broadcast body now st)) = if valid body then 200 else 400.
Proof.
  destruct (valid body) eqn:Hv.
  - destruct (valid_channelId body Hv) as [channelId Hc].
    by rewrite (broadcast_valid body now st channelId Hv Hc).
  - by destruct (broadcast_invalid body now st Hv).
Qed.

Lemma valid_present body : valid body = true → present body.
Proof.
  unfold valid, present.
  destruct (BroadcastBody.channelId body); [|done].
  destruct (BroadcastBody.profileId body); [|by rewrite andb_false_r].
  destruct (BroadcastBody.location body ≫= Location.lat); [|by rewrite andb_false_r].
  destruct (BroadcastBody.location body ≫= Location.lng); [|by rewrite andb_false_r].
  done.
Qed.

(** The registry itself is never touched by a publish. *)
Lemma broadcast_channels body now st :
  channels (snd (broadcast body now st)) = channels st.
Proof.
  destruct (valid body) eqn:Hv;
    [|by destruct (broadcast_invalid body now st Hv) as [_ ->]].
  destruct (valid_channelId body Hv) as [channelId Hc].
  rewrite (broadcast_valid body now st channelId Hv Hc). simpl.
  destruct (channels st !! channelId) as [subs|]; [|done].
  case_bool_decide; [|done].
  by destruct (fanout_frame subs (length (buffers st)) (Set_values subs st)
                 (set_buffers (λ b, b ++ [position_frame body now]) st))
    as (-> & _).
Qed.

(** The [cancel] callback does remove the channel it empties. *)
Lemma cancel_removes_emptied_channel channelId subs controller st :
  channels st !! channelId = Some subs →
  let st' := cancel channelId subs controller st in
  channels st' !! channelId = None
  ∨ (channels st' !! channelId = Some subs ∧ Set_size subs st' ≠ 0).
Proof.
  intros Hsubs. unfold cancel. case_bool_decide as Hn; simpl.
  - left. apply lookup_delete_eq.
  - right. by split.
Qed.

(** Subscribing keeps every registered channel non-empty. *)
Lemma stream_no_empty_channel channelId now st :
  well_formed st → no_empty_channel st →
  no_empty_channel (snd (stream channelId now st)).
Proof.
  intros Hwf Hne.
  destruct (well_formed_getOrCreateChannel channelId st Hwf) as [[Hc0 _] Hch].
  rewrite stream_eq. simpl. intros id r Hr. simpl in Hr.
  set (subs := fst (getOrCreateChannel channelId st)) in *.
  set (st0 := snd (getOrCreateChannel channelId st)) in *.
  destruct (decide (r = subs)) as [->|Hrs].
  - pose proof (Set_add_elem subs (length (streams st)) st0 (Hc0 _ _ Hch)) as Hin.
    unfold Set_size, Set_values in *. simpl.
    destruct (default [] _); simpl; [|done]. by apply not_elem_of_nil in Hin.
  - unfold Set_size, Set_values. simpl. rewrite list_lookup_alter_ne by done.
    revert Hr Hrs. unfold st0, subs, getOrCreateChannel.
    destruct (channels st !! channelId) as [subs'|] eqn:Hsubs'; simpl.
    + intros Hr _. by apply (Hne id r).
    + rewrite lookup_insert. case_decide; [by intros [= <-]|].
      intros Hr _. destruct Hwf as [Hc _].
      rewrite lookup_app_l by (by eapply Hc). by apply (Hne id r).
Qed.

(** So does a cancel whose set is registered under its own channel id
    only. *)
Lemma cancel_no_empty_channel channelId subs controller st :
  (∀ id, channels st !! id = Some subs → id = channelId) →
  no_empty_channel st →
  no_empty_channel (cancel channelId subs controller st).
Proof.
  intros Hown Hne id r. unfold cancel.
  assert (r ≠ subs → channels st !! id = Some r →
          Set_size r (Set_delete subs controller st) ≠ 0) as Hother.
  { intros Hrs Hr. unfold Set_size, Set_values. simpl.
    rewrite list_lookup_alter_ne by done. by apply (Hne id r). }
  case_bool_decide as Hn; simpl.
  - intros [Hid Hr]%lookup_delete_Some. apply Hother; [|done].
    intros ->. by rewrite (Hown id Hr) in Hid.
  - intros Hr. destruct (decide (r = subs)) as [->|Hrs]; [done|by apply Hother].
Qed.

(** The fan-out of a publish does not: when every stream of the channel
    rejects the chunk, the set ends up empty and the entry stays. *)
Lemma broadcast_keeps_emptied_channel body now st channelId subs :
  valid body = true → BroadcastBody.channelId body = Some channelId →
  channels st !! channelId = Some subs →
  (∀ c, c ∈ Set_values subs st → accepts c st = false) →
  let st' := snd (broadcast body now st) in
  channels st' !! channelId = Some subs ∧ Set_size subs st' = 0.
Proof.
  intros Hv Hc Hsubs Hrej st'. unfold st'. split.
  - by rewrite broadcast_channels.
  - unfold Set_size.
    rewrite (broadcast_Set_values body now st channelId subs Hv Hc Hsubs).
    induction (Set_values subs st) as [|c l IH]; [done|].
    rewrite filter_cons_False.
    + apply IH. intros c' Hc'. apply Hrej. by right.
    + rewrite Hrej; [done|by left].
Qed.

(** C1 fails on the code.  One subscriber on channel [c1] whose consumer
    has gone; a valid publish to [c1] answers with [subscriberCount] 1, the
    rejected push removes the controller from the set, and the registry
    still lists [c1], now with zero subscribers. *)
Theorem failed_push_leaves_empty_channel (now : string) :
  let body :=
    {| BroadcastBody.channelId := Some "c1";
       BroadcastBody.profileId := Some "p1";
       BroadcastBody.location :=
         Some {| Location.lat := Some (Num 52.52); Location.lng := Some (Num 13.405) |};
       BroadcastBody.metadata := None |} in
  let st := run [Subscribe "c1" now; Close 0] init in
  channelList st = [("c1", 1)]
  ∧ fst (broadcast body now st) = published "c1" 1
  ∧ channelList (snd (broadcast body now st)) = [("c1", 0)].
Proof. vm_compute. done. Qed.

(** C2 fails on the code.  A request that carries all three of channel id,
    publisher id and a location with numeric [lat] and [lng] is answered 400
    when [lat] is 0: the guard tests the coordinate for truthiness, not for
    presence.  The state is left as it was. *)
Theorem broadcast_rejects_zero_latitude (now : string) (st : State) :
  let body :=
    {| BroadcastBody.channelId := Some "c1";
       BroadcastBody.profileId := Some "p1";
       BroadcastBody.location :=
         Some {| Location.lat := Some (Num 0); Location.lng := Some (Num 13.405) |};
       BroadcastBody.metadata := None |} in
  present body
  ∧ status (fst (broadcast body now st)) = 400
  ∧ snd (broadcast body now st) = st.
Proof.
  intros body. split; [|by apply broadcast_invalid].
  unfold present. simpl. by repeat split.
Qed.

End BroadcastProperties.

(** ** The properties at the inputs of the end-to-end tests *)

Section Instances.
Import JS Broadcast E2E.

Local Abbreviation JSON_stringify := Runtime.JSON_stringify.

Example realtime_scenario :
  let conn := fst (stream "e2e-realtime" clock init) in
  let st := snd (stream "e2e-realtime" clock init) in
  let st' := snd (broadcast realtime_sender clock st) in
  conn_controller conn = 0
  ∧ buffers st !! 0 = Some (welcome_frame JSON_stringify "e2e-realtime" 1 clock)
  ∧ fst (broadcast realtime_sender clock st) = published "e2e-realtime" 1
  ∧ queue <$> streams st' !! 0 = Some [0; 1]
  ∧ buffers st' !! 1 = Some (position_frame JSON_stringify realtime_sender clock)
  ∧ status (fst (broadcast missing_location clock st)) = 400.
Proof. vm_compute. done. Qed.

Example consent_lifecycle :
  let consent := Domain.createConsent "e2e-user" (Some true) None clock in
  Domain.isConsentValid (Some consent) = true
  ∧ Domain.isConsentValid (Some (Domain.revokeConsent consent clock)) = false
  ∧ Domain.isConsentValid (Some (Domain.createConsent "e2e-user" None None clock))
    = false
  ∧ Domain.isConsentValid None = false.
Proof. vm_compute. done. Qed.

Example findNearby_scenario :
  (λ r, (PresenceRecord.profileId r, PresenceRecord.distanceMeters r,
         PresenceRecord.distanceLabel r, PresenceRecord.status r))
  <$> findNearby myPosition candidates None None
  = [("close", Num 319, "319m", in_range); ("mid", Num 2867, "2.9km", in_range)].
Proof. vm_compute. done. Qed.

Lemma publish_unknown_channel_noop_witness :
  BroadcastBody.channelId broadcaster = Some "e2e-test"
  ∧ channels init !! "e2e-test" = None
  ∧ snd (broadcast broadcaster clock init) = init
  ∧ (valid broadcaster = true →
     fst (broadcast broadcaster clock init) = published "e2e-test" 0)
  ∧ ∀ n, ("e2e-test", n) ∉ channelList (snd (broadcast broadcaster clock init)).
Proof.
  split; [reflexivity|]. split; [reflexivity|].
  apply (publish_unknown_channel_noop JSON_stringify broadcaster clock init "e2e-test");
    reflexivity.
Defined.

Lemma publish_reports_count_at_lookup_witness :
  valid realtime_sender = true
  ∧ BroadcastBody.channelId realtime_sender = Some "e2e-realtime"
  ∧ channels one_gone_one_open !! "e2e-realtime" = Some 0
  ∧ fst (broadcast realtime_sender clock one_gone_one_open)
    = published "e2e-realtime" (Set_size 0 one_gone_one_open)
  ∧ Set_values 0 (snd (broadcast realtime_sender clock one_gone_one_open))
    = filter (λ c, accepts c one_gone_one_open = true)
             (Set_values 0 one_gone_one_open).
Proof.
  split; [reflexivity|]. split; [reflexivity|]. split; [reflexivity|].
  apply (publish_reports_count_at_lookup JSON_stringify realtime_sender clock
           one_gone_one_open "e2e-realtime" 0);
    reflexivity.
Defined.

Lemma rejected_push_removes_subscriber_silently_witness :
  reachable JSON_stringify one_gone_one_open
  ∧ valid realtime_sender = true
  ∧ BroadcastBody.channelId realtime_sender = Some "e2e-realtime"
  ∧ channels one_gone_one_open !! "e2e-realtime" = Some 0
  ∧ let st := one_gone_one_open in
    let st' := snd (broadcast realtime_sender clock st) in
    let members := Set_values 0 st in
    Set_values 0 st' = filter (λ c, accepts c st = true) members
    ∧ (∀ c, c ∈ members → accepts c st = false → c ∉ Set_values 0 st')
    ∧ (∀ c s, c ∈ members → streams st !! c = Some s → readable s = true →
         c ∈ Set_values 0 st'
         ∧ streams st' !! c
           = Some {| readable := true; queue := queue s ++ [length (buffers st)] |}
         ∧ buffers st' !! length (buffers st)
           = Some (position_frame JSON_stringify realtime_sender clock))
    ∧ fst (broadcast realtime_sender clock st)
      = published "e2e-realtime" (length members).
Proof.
  split; [eexists; reflexivity|].
  split; [reflexivity|]. split; [reflexivity|]. split; [reflexivity|].
  apply (rejected_push_removes_subscriber_silently JSON_stringify realtime_sender
           clock one_gone_one_open "e2e-realtime" 0);
    [eexists; reflexivity|reflexivity..].
Defined.

Lemma publish_encodes_once_and_pushes_once_each_witness :
  reachable JSON_stringify one_gone_one_open
  ∧ valid realtime_sender = true
  ∧ BroadcastBody.channelId realtime_sender = Some "e2e-realtime"
  ∧ channels one_gone_one_open !! "e2e-realtime" = Some 0
  ∧ let st := one_gone_one_open in
    let st' := snd (broadcast realtime_sender clock st) in
    let members := Set_values 0 st in
    let encoded := length (buffers st) in
    (members ≠ [] →
       buffers st'
       = buffers st ++ [position_frame JSON_stringify realtime_sender clock]
       ∧ (∃ pushes,
            enqueue_log st' = enqueue_log st ++ pushes
            ∧ (∀ c, c ∈ members → filter (λ p, p.1 = c) pushes = [(c, encoded)])
            ∧ (∀ c, c ∉ members → filter (λ p, p.1 = c) pushes = [])))
    ∧ (members = [] → st' = st).
Proof.
  split; [eexists; reflexivity|].
  split; [reflexivity|]. split; [reflexivity|]. split; [reflexivity|].
  apply (publish_encodes_once_and_pushes_once_each JSON_stringify realtime_sender
           clock one_gone_one_open "e2e-realtime" 0);
    [eexists; reflexivity|reflexivity..].
Defined.

(** C4 as stated fails: the channel is registered, its set is empty, the
    request is valid, and the publish encodes nothing. *)
Lemma publish_to_emptied_channel_encodes_nothing :
  reachable JSON_stringify emptied_channel
  ∧ valid realtime_sender = true
  ∧ channels emptied_channel !! "e2e-realtime" = Some 0
  ∧ Set_values 0 emptied_channel = []
  ∧ ¬ ∃ text,
        buffers (snd (broadcast realtime_sender clock emptied_channel))
        = buffers emptied_channel ++ [text].
Proof.
  split; [eexists; reflexivity|].
  split; [reflexivity|]. split; [reflexivity|]. split; [reflexivity|].
  intros [text Htext]. apply (f_equal length) in Htext.
  rewrite length_app in Htext. vm_compute in Htext. discriminate.
Qed.

Lemma subscription_welcome_first_witness :
  reachable JSON_stringify init
  ∧ let ops := [Publish realtime_sender clock; Subscribe "e2e-realtime" clock;
                Publish realtime_sender clock] in
    let conn := fst (stream "e2e-realtime" clock init) in
    let st1 := snd (stream "e2e-realtime" clock init) in
    let subscriberCount := Set_size (conn_subs conn) st1 in
    let later := run ops st1 in
    channels st1 !! "e2e-realtime" = Some (conn_subs conn)
    ∧ conn_controller conn ∈ Set_values (conn_subs conn) st1
    ∧ 1 ≤ subscriberCount
    ∧ ∃ s w rest,
        streams later !! conn_controller conn = Some s
        ∧ queue s = w :: rest
        ∧ buffers later !! w
          = Some (welcome_frame JSON_stringify "e2e-realtime" subscriberCount clock)
        ∧ Forall (λ r, ∃ text, buffers later !! r = Some text
                       ∧ (∃ json, text = sse_frame "position" json)
                       ∧ (∀ json, text ≠ sse_frame "connected" json)) rest.
Proof.
  split; [exists []; reflexivity|].
  apply (subscription_welcome_first JSON_stringify "e2e-realtime" clock init
           [Publish realtime_sender clock; Subscribe "e2e-realtime" clock;
            Publish realtime_sender clock]).
  exists []. reflexivity.
Defined.

End Instances.

(** * Further properties *)

(** ** domain.ts *)

Section DomainExtras.
Import JS Domain Vocabulary.

Variables Math_sin Math_cos Math_sqrt : number → number.
Variable Math_atan2 : number → number → number.
Variable Math_PI : number.
Variable Number_toString : number → string.
Variable Number_toFixed : number → nat → string.

Local Abbreviation calculateDistance :=
  (calculateDistance Math_sin Math_cos Math_sqrt Math_atan2 Math_PI).
Local Abbreviation formatDistance := (formatDistance Number_toString Number_toFixed).
Local Abbreviation findNearby :=
  (findNearby Math_sin Math_cos Math_sqrt Math_atan2 Math_PI
              Number_toString Number_toFixed).
Local Abbreviation presence := (presence calculateDistance formatDistance).

(** A closer point never gets a worse status, and the status is never
    [unknown]. *)
Theorem classifyDistance_monotone
    (d1 d2 : number) (bleRange maxRange : option number) :
  le d1 d2 = true →
  rank (classifyDistance d1 bleRange maxRange)
  ≤ rank (classifyDistance d2 bleRange maxRange)
  ∧ rank (classifyDistance d2 bleRange maxRange) ≤ 2.
Proof.
  intros H12. unfold classifyDistance.
  set (b := default (Num 30) bleRange). set (m := default (Num 5000) maxRange).
  destruct (le d2 b) eqn:H2b.
  { rewrite (le_trans d1 d2 b H12 H2b). simpl. lia. }
  destruct (le d2 m) eqn:H2m.
  { rewrite (le_trans d1 d2 m H12 H2m). destruct (le d1 b); simpl; lia. }
  destruct (le d1 b), (le d1 m); simpl; lia.
Qed.

Lemma Qfloor_unique (x : Q) (z : Z) :
  (inject_Z z <= x)%Q → (x < inject_Z (z + 1))%Q → Qfloor x = z.
Proof.
  intros Hlo Hhi.
  pose proof (Qfloor_le x) as Hf1. pose proof (Qlt_floor x) as Hf2.
  assert (Qfloor x < z + 1)%Z by (rewrite Zlt_Qlt; lra).
  assert (z < Qfloor x + 1)%Z by (rewrite Zlt_Qlt; lra).
  lia.
Qed.

(** Just below a kilometre the label is in metres and reads 1000: the unit
    is chosen on the distance as measured, the figure is rounded. *)
Theorem formatDistance_rounds_up_to_1000m (q : Q) :
  (999.5 <= q)%Q → (q < 1000)%Q →
  formatDistance (Num q) = String.append (Number_toString (Num 1000)) "m".
Proof.
  intros Hlo Hhi. unfold Domain.formatDistance.
  assert (lt (Num q) (Num 1000) = true) as ->.
  { simpl. apply negb_true_iff. destruct (Qle_bool 1000 q) eqn:Hc; [|done].
    apply Qle_bool_iff in Hc. lra. }
  unfold Math_round. rewrite (Qfloor_unique (q + (1 # 2)) 1000); [done| |].
  - change (inject_Z 1000) with 1000%Q. lra.
  - change (inject_Z (1000 + 1)) with 1001%Q. lra.
Qed.

(** [findNearby] is the sort of the records of the candidates that pass
    the filter. *)
Lemma findNearby_unfold myPosition candidates maxRadiusMeters bleRangeMeters :
  let maxRadius := default (Num 5000) maxRadiusMeters in
  let bleRange := default (Num 30) bleRangeMeters in
  findNearby myPosition candidates maxRadiusMeters bleRangeMeters
  = Array_sort (by_key PresenceRecord.distanceMeters)
      (List.map (presence myPosition maxRadius bleRange)
         (List.filter
            (λ c, le (Math_round (calculateDistance myPosition
                                    (ProfileLocation.location c)))
                     maxRadius)
            candidates)).
Proof.
  intros maxRadius bleRange. unfold Domain.findNearby.
  fold maxRadius bleRange. by rewrite filter_map_comm.
Qed.

Lemma elem_of_findNearby myPosition candidates maxRadiusMeters bleRangeMeters r :
  let maxRadius := default (Num 5000) maxRadiusMeters in
  let bleRange := default (Num 30) bleRangeMeters in
  r ∈ findNearby myPosition candidates maxRadiusMeters bleRangeMeters
  ↔ ∃ c, c ∈ candidates
         ∧ r = presence myPosition maxRadius bleRange c
         ∧ le (Math_round (calculateDistance myPosition
                             (ProfileLocation.location c)))
              maxRadius = true.
Proof.
  intros maxRadius bleRange. rewrite findNearby_unfold.
  rewrite Array_sort_perm. fold maxRadius bleRange.
  rewrite list_elem_of_In, in_map_iff. split.
  - intros (c & <- & [Hc Hle]%filter_In). exists c.
    by rewrite list_elem_of_In.
  - intros (c & Hc & -> & Hle). exists c. split; [done|].
    apply filter_In. by rewrite <- list_elem_of_In.
Qed.

(** A record is returned with status [out_of_range] only when the distance
    exceeds the radius by less than half a metre: the filter looks at the
    rounded distance, the status at the distance as measured.  No record
    has status [unknown]. *)
Theorem findNearby_out_of_range_within_half_metre
    (myPosition : GeoPoint.t) (candidates : list ProfileLocation.t)
    (maxRadiusMeters bleRangeMeters : option number) (r : PresenceRecord.t) :
  r ∈ findNearby myPosition candidates maxRadiusMeters bleRangeMeters →
  PresenceRecord.status r ≠ unknown
  ∧ (PresenceRecord.status r = out_of_range →
     ∃ c q m,
       c ∈ candidates
       ∧ PresenceRecord.profileId r = ProfileLocation.profileId c
       ∧ calculateDistance myPosition (ProfileLocation.location c) = Num q
       ∧ default (Num 5000) maxRadiusMeters = Num m
       ∧ (m < q)%Q ∧ (q < m + (1 # 2))%Q).
Proof.
  intros (c & Hc & -> & Hle)%elem_of_findNearby.
  remember (calculateDistance myPosition (ProfileLocation.location c)) as d
    eqn:Hdist.
  set (maxRadius := default (Num 5000) maxRadiusMeters) in *.
  unfold Vocabulary.presence. rewrite <- Hdist. simpl.
  unfold classifyDistance. simpl.
  split.
  { destruct (le d _); [done|]. by destruct (le d _). }
  destruct (le d _); [done|]. destruct (le d maxRadius) eqn:Hd; [done|].
  intros _. apply le_Num_inv in Hle as (x & m & Hx & Hm & Hxm).
  destruct d as [|q]; [simpl in Hx; discriminate|]. exists c, q, m.
  repeat split; try done.
  - rewrite Hm in Hd. simpl in Hd.
    destruct (Qlt_le_dec m q) as [Hlt|Hqm]; [done|].
    apply Qle_bool_iff in Hqm. congruence.
  - unfold Math_round in Hx.
    assert (inject_Z (Qfloor (q + (1 # 2))) = x) as Hx' by congruence.
    rewrite <- Hx' in Hxm.
    pose proof (Qlt_floor (q + (1 # 2))) as Hf.
    rewrite inject_Z_plus in Hf. change (inject_Z 1) with 1%Q in Hf. lra.
Qed.

Lemma filter_length_impl {A : Type} (p1 p2 : A → bool) (l : list A) :
  (∀ a, p1 a = true → p2 a = true) →
  length (List.filter p1 l) ≤ length (List.filter p2 l).
Proof.
  intros Himp. induction l as [|a l IH]; simpl; [done|].
  destruct (p1 a) eqn:H1.
  - rewrite (Himp a H1). simpl. lia.
  - destruct (p2 a); simpl; lia.
Qed.

(** A wider radius returns at least the candidates of the narrower one,
    each with the same profile id, location, distance and label. *)
Theorem findNearby_wider_radius_keeps
    (myPosition : GeoPoint.t) (candidates : list ProfileLocation.t)
    (radius1 radius2 : number) (bleRangeMeters : option number) :
  le radius1 radius2 = true →
  let narrow := findNearby myPosition candidates (Some radius1) bleRangeMeters in
  let wide := findNearby myPosition candidates (Some radius2) bleRangeMeters in
  length narrow ≤ length wide
  ∧ ∀ r, r ∈ narrow →
      ∃ r', r' ∈ wide
            ∧ PresenceRecord.profileId r' = PresenceRecord.profileId r
            ∧ PresenceRecord.location r' = PresenceRecord.location r
            ∧ PresenceRecord.distanceMeters r' = PresenceRecord.distanceMeters r
            ∧ PresenceRecord.distanceLabel r' = PresenceRecord.distanceLabel r.
Proof.
  intros H12 narrow wide. split.
  - unfold narrow, wide. rewrite !findNearby_unfold, !Array_sort_perm.
    rewrite !length_map. apply filter_length_impl.
    intros c Hc. by eapply le_trans.
  - intros r (c & Hc & -> & Hle)%elem_of_findNearby.
    exists (presence myPosition radius2 (default (Num 30) bleRangeMeters) c).
    split; [|done]. apply elem_of_findNearby. exists c.
    split; [done|]. split; [done|]. by eapply le_trans.
Qed.

Lemma sort_insert_same_key {A : Type} (key : A → number) (k : Q) (x : A)
    (l : list A) :
  List.filter (same_key key k) (sort_insert (by_key key) x l)
  = List.filter (same_key key k) (x :: l).
Proof.
  induction l as [|y l IH]; cbn [sort_insert]; [done|].
  destruct (JS.lt _ _) eqn:Hc; [|done].
  cbn [List.filter]. rewrite IH. cbn [List.filter].
  destruct (same_key key k x) eqn:Hx, (same_key key k y) eqn:Hy; try done.
  exfalso. unfold same_key, by_key in *.
  destruct (key x) as [|qx], (key y) as [|qy]; try done.
  apply Qeq_bool_iff in Hx, Hy. simpl in Hc. apply negb_true_iff in Hc.
  assert (Qle_bool (qx - qy) 0 = true) as Hle; [|congruence].
  apply Qle_bool_iff. lra.
Qed.

Lemma Array_sort_same_key {A : Type} (key : A → number) (k : Q) (l : list A) :
  List.filter (same_key key k) (Array_sort (by_key key) l)
  = List.filter (same_key key k) l.
Proof.
  induction l as [|x l IH]; [done|].
  cbn [Array_sort]. rewrite sort_insert_same_key. cbn [List.filter].
  by rewrite IH.
Qed.

Lemma filter_filter_andb {A : Type} (p q : A → bool) (l : list A) :
  List.filter p (List.filter q l) = List.filter (λ a, p a && q a) l.
Proof.
  induction l as [|a l IH]; simpl; [done|].
  destruct (q a); simpl; [|by rewrite andb_false_r].
  rewrite andb_true_r. destruct (p a); by rewrite IH.
Qed.

(** Candidates at the same rounded distance come out in the order they
    came in: among the records returned, those at distance [k] are the
    records of the kept candidates at distance [k], in candidate order. *)
Theorem findNearby_keeps_order_of_ties
    (myPosition : GeoPoint.t) (candidates : list ProfileLocation.t)
    (maxRadiusMeters bleRangeMeters : option number) (k : Q) :
  let maxRadius := default (Num 5000) maxRadiusMeters in
  let bleRange := default (Num 30) bleRangeMeters in
  let rounded c :=
    Math_round (calculateDistance myPosition (ProfileLocation.location c)) in
  List.filter (same_key PresenceRecord.distanceMeters k)
    (findNearby myPosition candidates maxRadiusMeters bleRangeMeters)
  = List.map (presence myPosition maxRadius bleRange)
      (List.filter (λ c, same_key rounded k c && le (rounded c) maxRadius)
                   candidates).
Proof.
  intros maxRadius bleRange rounded.
  rewrite findNearby_unfold, Array_sort_same_key, filter_map_comm.
  fold maxRadius bleRange. by rewrite filter_filter_andb.
Qed.

(** A fresh consent carries the flags asked for, absent ones as false, is
    not revoked, and is valid exactly when one of the flags is granted. *)
Theorem createConsent_valid_iff_granted
    (profileId : string) (locationTracking bleDiscovery : option bool)
    (now : string) :
  let consent := createConsent profileId locationTracking bleDiscovery now in
  LocationConsent.revokedAt consent = None
  ∧ LocationConsent.grantedAt consent = now
  ∧ (isConsentValid (Some consent) = true
     ↔ locationTracking = Some true ∨ bleDiscovery = Some true).
Proof.
  simpl. split; [done|]. split; [done|].
  destruct locationTracking as [[]|], bleDiscovery as [[]|]; simpl;
    split; try done; try (intros [?|?]; done); auto.
Qed.

(** Revoking again overwrites [revokedAt]: the time of the first revocation
    is not kept. *)
Theorem revokeConsent_again_overwrites
    (consent : LocationConsent.t) (first second : string) :
  revokeConsent (revokeConsent consent first) second
  = revokeConsent consent second.
Proof. reflexivity. Qed.

End DomainExtras.

(** ** index.ts: the stateless endpoints *)

Section ApiProperties.
Import JS Broadcast Vocabulary.

Variables Math_sin Math_cos Math_sqrt : number → number.
Variable Math_atan2 : number → number → number.
Variable Math_PI : number.
Variable Number_toString : number → string.
Variable Number_toFixed : number → nat → string.

Local Abbreviation calculateDistance :=
  (Domain.calculateDistance Math_sin Math_cos Math_sqrt Math_atan2 Math_PI).
Local Abbreviation findNearby :=
  (Domain.findNearby Math_sin Math_cos Math_sqrt Math_atan2 Math_PI
                     Number_toString Number_toFixed).
Local Abbreviation calculate :=
  (Api.calculate Math_sin Math_cos Math_sqrt Math_atan2 Math_PI
             Number_toString Number_toFixed).
Local Abbreviation nearby_endpoint :=
  (Api.nearby Math_sin Math_cos Math_sqrt Math_atan2 Math_PI
          Number_toString Number_toFixed).

Lemma truthy_number_usable (v : option number) :
  truthy truthy_number v = true ↔ usable v.
Proof.
  unfold usable. destruct v as [[|q]|]; simpl.
  - split; [done|]. by intros (q & [=] & _).
  - rewrite negb_true_iff. split.
    + intros Hq. exists q. split; [done|]. intros Hz%Qeq_bool_iff. congruence.
    + intros (q' & [= <-] & Hq). destruct (Qeq_bool q 0) eqn:Hz; [|done].
      by apply Qeq_bool_iff in Hz.
  - split; [done|]. by intros (q & [=] & _).
Qed.

(** The distance endpoint answers 200 exactly when all four coordinates
    are there and none of them is zero; otherwise it answers 400.  A point
    on the equator or on the prime meridian is turned away. *)
Theorem calculate_accepts_iff_coordinates_nonzero (body : CalculateBody.t) :
  (status (calculate body) = 200
   ↔ usable (CalculateBody.from body ≫= Location.lat)
     ∧ usable (CalculateBody.from body ≫= Location.lng)
     ∧ usable (CalculateBody.to body ≫= Location.lat)
     ∧ usable (CalculateBody.to body ≫= Location.lng))
  ∧ (status (calculate body) = 200 ∨ status (calculate body) = 400).
Proof.
  rewrite <- !truthy_number_usable. unfold Api.calculate.
  destruct (truthy truthy_number (CalculateBody.from body ≫= Location.lat));
    simpl; [|split; [split; [done|by intros [? _]]|by right]].
  destruct (truthy truthy_number (CalculateBody.from body ≫= Location.lng));
    simpl; [|split; [split; [done|by intros (_ & ? & _)]|by right]].
  destruct (truthy truthy_number (CalculateBody.to body ≫= Location.lat));
    simpl; [|split; [split; [done|by intros (_ & _ & ? & _)]|by right]].
  destruct (truthy truthy_number (CalculateBody.to body ≫= Location.lng));
    simpl; [|split; [split; [done|by intros (_ & _ & _ & ?)]|by right]].
  split; [done|by left].
Qed.

Lemma Math_round_monotone (a b : number) :
  le a b = true → le (Math_round a) (Math_round b) = true.
Proof.
  intros (x & y & -> & -> & Hxy)%le_Num_inv. unfold Math_round, le.
  apply Qle_bool_iff. rewrite <- Zle_Qle. apply Qfloor_resp_le. lra.
Qed.

Lemma le_total_Num (x y : Q) : le (Num x) (Num y) = false → le (Num y) (Num x) = true.
Proof.
  simpl. intros Hxy. apply Qle_bool_iff.
  destruct (Qlt_le_dec y x) as [Hlt|Hle]; [lra|].
  apply Qle_bool_iff in Hle. congruence.
Qed.

(** The status the distance endpoint reports, against the rounded distance
    it reports next to it. *)
Lemma classifyDistance_against_rounded (distance : number) :
  match Domain.classifyDistance distance None None with
  | nearby => le (Math_round distance) (Num 30) = true
  | in_range =>
      le (Num 30) (Math_round distance) = true
      ∧ le (Math_round distance) (Num 5000) = true
  | out_of_range =>
      Math_round distance = NaN ∨ le (Num 5000) (Math_round distance) = true
  | unknown => False
  end.
Proof.
  unfold Domain.classifyDistance. simpl.
  destruct (le distance (Num 30)) eqn:H30.
  { by apply (Math_round_monotone distance (Num 30)). }
  destruct distance as [|q]; [by left|].
  destruct (le (Num q) (Num 5000)) eqn:H5000.
  - split; [|by apply (Math_round_monotone (Num q) (Num 5000))].
    apply (Math_round_monotone (Num 30) (Num q)). by apply le_total_Num.
  - right. apply (Math_round_monotone (Num 5000) (Num q)). by apply le_total_Num.
Qed.

(** The answer of the distance endpoint to a request it accepts. *)
Lemma calculate_ok (body : CalculateBody.t) :
  status (calculate body) = 200 →
  ∃ from to,
    CalculateBody.from body = Some from ∧ CalculateBody.to body = Some to
    ∧ let distance :=
        calculateDistance (Api.GeoPoint_of (Some from)) (Api.GeoPoint_of (Some to)) in
      json (calculate body)
      = JObject
          [("from", Location_json from); ("to", Location_json to);
           ("distanceMeters", JNumber (Math_round distance));
           ("distanceLabel",
            JString (Domain.formatDistance Number_toString Number_toFixed distance));
           ("status",
            Api.PresenceStatus_json (Domain.classifyDistance distance None None))].
Proof.
  unfold Api.calculate.
  destruct (CalculateBody.from body) as [from|], (CalculateBody.to body) as [to|];
    simpl; try (by rewrite ?orb_true_r).
  destruct (truthy _ _), (truthy _ _), (truthy _ _), (truthy _ _); simpl;
    try done.
  intros _. by exists from, to.
Qed.

(** In an answer of the distance endpoint the status agrees with the
    rounded distance: [nearby] goes with at most 30 metres, [in_range] with
    30 to 5000, [out_of_range] with 5000 or more, or with no distance at
    all. *)
Theorem calculate_status_agrees_with_distance (body : CalculateBody.t) :
  status (calculate body) = 200 →
  ∃ distanceMeters presence,
    Api.JSON_get "distanceMeters" (json (calculate body))
    = Some (JNumber distanceMeters)
    ∧ Api.JSON_get "status" (json (calculate body))
      = Some (Api.PresenceStatus_json presence)
    ∧ match presence with
      | nearby => le distanceMeters (Num 30) = true
      | in_range =>
          le (Num 30) distanceMeters = true ∧ le distanceMeters (Num 5000) = true
      | out_of_range =>
          distanceMeters = NaN ∨ le (Num 5000) distanceMeters = true
      | unknown => False
      end.
Proof.
  intros (from & to & _ & _ & Hjson)%calculate_ok. simpl in Hjson.
  rewrite Hjson. eexists _, _. split; [reflexivity|]. split; [reflexivity|].
  apply classifyDistance_against_rounded.
Qed.

Lemma length_findNearby myPosition candidates maxRadiusMeters bleRangeMeters :
  length (findNearby myPosition candidates maxRadiusMeters bleRangeMeters)
  ≤ length candidates.
Proof.
  unfold Domain.findNearby. rewrite Array_sort_perm.
  etransitivity; [apply List.filter_length_le|]. by rewrite length_map.
Qed.


(** An answer of the nearby endpoint lists what [findNearby] returns for
    the radius asked for, 5000 when none is; [count] is its length, never
    more than [totalCandidates], the length of the array sent. *)
Theorem nearby_count_within_total
    (body : NearbyBody.t) (candidates : list ProfileLocation.t) :
  NearbyBody.candidates body = Some candidates →
  status (nearby_endpoint body) = 200 →
  let radius := default (Num 5000) (NearbyBody.maxRadiusMeters body) in
  let found :=
    findNearby (Api.GeoPoint_of (NearbyBody.myPosition body)) candidates
               (Some radius) None in
  json (nearby_endpoint body)
  = JObject [("nearby", JArray (Api.PresenceRecord_json <$> found));
             ("count", JNumber (of_nat (length found)));
             ("totalCandidates", JNumber (of_nat (length candidates)));
             ("maxRadiusMeters", JNumber radius)]
  ∧ length found ≤ length candidates
  ∧ (candidates = [] → found = []).
Proof.
  intros Hc Hok radius found. split; [|split].
  - revert Hok. unfold Api.nearby. rewrite Hc.
    by destruct (truthy _ _), (truthy _ _).
  - apply length_findNearby.
  - by intros ->.
Qed.

(** Whenever the consent endpoint answers 200, the [valid] it reports is
    [isConsentValid] of the consent it returns: also for [revoke], where
    the answer says [valid: false] without asking. *)
Theorem consent_valid_field_agrees (body : ConsentBody.t) (now : string) :
  status (Api.consent body now) = 200 →
  ∃ consent,
    Api.JSON_get "consent" (json (Api.consent body now))
    = Some (Api.LocationConsent_json consent)
    ∧ Api.JSON_get "valid" (json (Api.consent body now))
      = Some (JBool (Domain.isConsentValid (Some consent))).
Proof.
  unfold Api.consent.
  case_bool_decide as Hcreate.
  { destruct (truthy _ _); simpl; [|done]. intros _. by eexists. }
  case_bool_decide as Hvalidate.
  { destruct (ConsentBody.consent body) as [c|]; simpl; [|done].
    intros _. by exists c. }
  case_bool_decide as Hrevoke; [|done].
  destruct (ConsentBody.consent body) as [c|]; simpl; [|done].
  intros _. exists (Domain.revokeConsent c now). split; [done|].
  unfold Domain.isConsentValid. simpl. by destruct (truthy_string now).
Qed.

(** The consent endpoint answers 200 for [create] with a non-empty profile
    id and for [validate] and [revoke] with a consent object; every other
    request, an unknown or missing action included, gets 400. *)
Theorem consent_accepts_iff (body : ConsentBody.t) (now : string) :
  (status (Api.consent body now) = 200
   ↔ (ConsentBody.action body = Some "create"
      ∧ truthy truthy_string (ConsentBody.profileId body) = true)
     ∨ ((ConsentBody.action body = Some "validate"
         ∨ ConsentBody.action body = Some "revoke")
        ∧ is_Some (ConsentBody.consent body)))
  ∧ (status (Api.consent body now) = 200 ∨ status (Api.consent body now) = 400).
Proof.
  unfold Api.consent.
  case_bool_decide as Hcreate.
  { destruct (truthy _ _) eqn:Hp; simpl.
    - split; [|by left]. split; [by left|done].
    - split; [|by right]. split; [done|].
      intros [[_ ?]|[[?|?] _]]; congruence. }
  case_bool_decide as Hvalidate.
  { destruct (ConsentBody.consent body) as [c|] eqn:Hc; simpl.
    - split; [|by left]. split; [|done]. intros _. right. split; [by left|by eexists].
    - split; [|by right]. split; [done|].
      intros [[? _]|[_ [? ?]]]; congruence. }
  case_bool_decide as Hrevoke.
  { destruct (ConsentBody.consent body) as [c|] eqn:Hc; simpl.
    - split; [|by left]. split; [|done]. intros _. right. split; [by right|by eexists].
    - split; [|by right]. split; [done|].
      intros [[? _]|[_ [? ?]]]; congruence. }
  simpl. split; [|by right]. split; [done|].
  intros [[? _]|[[?|?] _]]; congruence.
Qed.

End ApiProperties.

(** ** index.ts: the broadcast layer, further *)

Section BroadcastExtras.
Import JS Broadcast Vocabulary.

Variable JSON_stringify : JSON → string.

Local Abbreviation broadcast := (broadcast JSON_stringify).
Local Abbreviation stream := (stream JSON_stringify).
Local Abbreviation step := (step JSON_stringify).
Local Abbreviation run := (run JSON_stringify).
Local Abbreviation reachable := (reachable JSON_stringify).
Local Abbreviation position_frame := (position_frame JSON_stringify).
Local Abbreviation welcome_frame := (welcome_frame JSON_stringify).

(** *** The registry *)

(** [getOrCreateChannel] registers the id if need be and returns its set:
    looking the id up afterwards gives that set, asking again changes
    nothing, other ids are left alone, an id that was registered keeps its
    set and a new one gets an empty set of its own. *)
Theorem getOrCreateChannel_registers_once (channelId : string) (st : State) :
  let subs := fst (getOrCreateChannel channelId st) in
  let st1 := snd (getOrCreateChannel channelId st) in
  channels st1 !! channelId = Some subs
  ∧ getOrCreateChannel channelId st1 = (subs, st1)
  ∧ (∀ id, id ≠ channelId → channels st1 !! id = channels st !! id)
  ∧ (∀ old, channels st !! channelId = Some old → subs = old ∧ st1 = st)
  ∧ (channels st !! channelId = None →
     subs = length (sets st) ∧ sets st1 = sets st ++ [[]]).
Proof.
  intros subs st1.
  assert (channels st1 !! channelId = Some subs) as Hreg.
  { unfold subs, st1, getOrCreateChannel.
    destruct (channels st !! channelId) as [old|] eqn:Hold; simpl; [done|].
    apply lookup_insert_eq. }
  split; [done|]. split; [|split; [|split]].
  - unfold getOrCreateChannel at 1. by rewrite Hreg.
  - intros id Hne. unfold st1, getOrCreateChannel.
    destruct (channels st !! channelId); simpl; [done|].
    by rewrite lookup_insert_ne.
  - intros old Hold. unfold subs, st1, getOrCreateChannel. by rewrite Hold.
  - intros Hnone. unfold subs, st1, getOrCreateChannel. by rewrite Hnone.
Qed.

(** The channel list has one entry for each registered id, with the size
    of its set, and no other entry. *)
Theorem channelList_enumerates_registry (st : State) :
  (∀ id n, (id, n) ∈ channelList st
           ↔ ∃ subs, channels st !! id = Some subs ∧ n = Set_size subs st)
  ∧ NoDup (channelList st).*1
  ∧ length (channelList st) = size (channels st).
Proof.
  split; [|split].
  - intros id n. split; [apply channelList_lookup|].
    intros (subs & Hsubs & ->). unfold channelList.
    apply list_elem_of_fmap. exists (id, subs). split; [done|].
    by apply elem_of_map_to_list.
  - unfold channelList. rewrite <- list_fmap_compose.
    rewrite (list_fmap_ext _ fst (map_to_list (channels st)));
      [apply NoDup_fst_map_to_list|].
    by intros i [id subs] _.
  - unfold channelList. by rewrite length_fmap, length_map_to_list.
Qed.

(** *** Reachable states *)

Lemma allocated_frame st st' :
  sets st' = sets st → length (streams st) ≤ length (streams st') →
  allocated st → allocated st'.
Proof.
  intros Hs Hl Ha subs l c Hsubs Hc. rewrite Hs in Hsubs.
  specialize (Ha subs l c Hsubs Hc). lia.
Qed.

Lemma allocated_alter (f : list nat → list nat) subs st bound :
  (∀ l, (∀ c, c ∈ l → c < length (streams st)) → ∀ c, c ∈ f l → c < bound) →
  length (streams st) ≤ bound →
  allocated st →
  ∀ r l c, alter f subs (sets st) !! r = Some l → c ∈ l → c < bound.
Proof.
  intros Hf Hb Ha r l c. rewrite list_lookup_alter. case_decide as Heq.
  - subst r. destruct (sets st !! subs) as [l0|] eqn:Hl0; simpl; [|done].
    intros [= <-]. apply Hf. intros c' Hc'. by apply (Ha subs l0 c').
  - intros Hl Hc. specialize (Ha r l c Hl Hc). lia.
Qed.

Lemma allocated_filter (P : nat → Prop) `{!∀ x, Decision (P x)} subs st st' :
  sets st' = alter (filter P) subs (sets st) →
  length (streams st') = length (streams st) →
  allocated st → allocated st'.
Proof.
  intros Hs Hl Ha r l c. rewrite Hs, Hl.
  apply (allocated_alter (filter P) subs st (length (streams st))); [|done..].
  intros l0 Hl0 c0 [_ ?]%list_elem_of_filter. by apply Hl0.
Qed.

(** The state after a subscription, by whether the channel was there. *)
Lemma stream_state channelId now st :
  let subs := from_option (λ s, s) (length (sets st)) (channels st !! channelId) in
  let controller := length (streams st) in
  let grown :=
    match channels st !! channelId with
    | Some _ => sets st
    | None => sets st ++ [[]]
    end in
  fst (stream channelId now st)
  = {| conn_channelId := channelId; conn_subs := subs;
       conn_controller := controller |}
  ∧ channels (snd (stream channelId now st)) = <[channelId := subs]> (channels st)
  ∧ sets (snd (stream channelId now st))
    = alter (λ l, if bool_decide (controller ∈ l) then l else l ++ [controller])
            subs grown
  ∧ streams (snd (stream channelId now st))
    = streams st ++ [{| readable := true; queue := [length (buffers st)] |}]
  ∧ buffers (snd (stream channelId now st))
    = buffers st
      ++ [welcome_frame channelId (Set_size subs (snd (stream channelId now st)))
                        now]
  ∧ enqueue_log (snd (stream channelId now st))
    = enqueue_log st ++ [(controller, length (buffers st))].
Proof.
  intros subs controller grown. rewrite stream_eq. simpl.
  unfold subs, grown, getOrCreateChannel.
  destruct (channels st !! channelId) as [old|] eqn:Hold; simpl.
  - repeat split; try done. by rewrite insert_id.
  - done.
Qed.

Lemma consistent_init : consistent init.
Proof.
  split; [|split].
  - split; [intros id subs|intros subs l]; unfold init; simpl.
    + by rewrite lookup_empty.
    + by rewrite lookup_nil.
  - intros subs l c. unfold init. simpl. by rewrite lookup_nil.
  - intros id1 id2 subs. unfold init. simpl. by rewrite lookup_empty.
Qed.

Lemma consistent_step op st : consistent st → consistent (step st op).
Proof.
  intros (Hwf & Ha & Hd).
  split; [by apply well_formed_step|].
  destruct op as [channelId now|body now|conn controller|controller]; simpl.
  - destruct (stream_state channelId now st) as (_ & Hc & Hs & Hst & _).
    split.
    + intros r l c. rewrite Hs, Hst, length_app. simpl.
      destruct (channels st !! channelId) as [old|] eqn:Hold; simpl.
      * apply (allocated_alter _ old st); [|lia|done].
        intros l0 Hl0 c0. case_bool_decide.
        -- intros ?%Hl0. lia.
        -- intros [?%Hl0|Hc0%list_elem_of_singleton]%elem_of_app; [lia|].
           subst c0. lia.
      * rewrite list_lookup_alter. case_decide as Heq.
        -- subst r. rewrite lookup_app_r, Nat.sub_diag by done. simpl.
           intros [= <-].
           intros Hc0%list_elem_of_singleton. subst c. lia.
        -- rewrite lookup_app. destruct (sets st !! r) as [l0|] eqn:Hl0.
           ++ intros [= <-] Hin. specialize (Ha r l0 c Hl0 Hin). lia.
           ++ destruct (r - length (sets st)) as [|k] eqn:Hk; simpl; [|done].
              intros [= <-]. by intros ?%not_elem_of_nil.
    + intros id1 id2 subs. rewrite Hc, !lookup_insert.
      destruct Hwf as [Hreg _].
      case_decide as E1; case_decide as E2.
      * congruence.
      * intros [= <-] H2. rewrite <- E1.
        destruct (channels st !! channelId) as [old|] eqn:Hold; simpl in *.
        -- by apply (Hd channelId id2 old).
        -- apply Hreg in H2. lia.
      * intros H1 [= <-]. rewrite <- E2.
        destruct (channels st !! channelId) as [old|] eqn:Hold; simpl in *.
        -- by apply (Hd id1 channelId old).
        -- apply Hreg in H1. lia.
      * apply Hd.
  - destruct (valid body) eqn:Hv;
      [|by destruct (broadcast_invalid JSON_stringify body now st Hv) as [_ ->]].
    destruct (valid_channelId body Hv) as [channelId Hc].
    rewrite (broadcast_valid JSON_stringify body now st channelId Hv Hc). simpl.
    destruct (channels st !! channelId) as [subs|]; [|done].
    case_bool_decide; [|done].
    set (stb := set_buffers (λ b, b ++ [position_frame body now]) st).
    destruct (fanout_frame subs (length (buffers st)) (Set_values subs st) stb)
      as (Hch & _ & _ & Hlen & _).
    split.
    + eapply (allocated_filter _ subs stb); [apply fanout_sets|done|done].
    + intros id1 id2 r. rewrite Hch. apply Hd.
  - unfold cancel.
    assert (allocated (Set_delete (conn_subs conn) controller st)) as Ha'
      by (by eapply (allocated_filter _ (conn_subs conn) st)).
    case_bool_decide; (split; [done|]); [|done].
    intros id1 id2 r. simpl.
    intros [_ H1]%lookup_delete_Some [_ H2]%lookup_delete_Some. by eapply Hd.
  - split; [|done].
    eapply allocated_frame; [| |exact Ha]; simpl; [done|].
    by rewrite length_alter.
Qed.

Lemma reachable_consistent st : reachable st → consistent st.
Proof.
  intros [ops ->]. unfold Broadcast.run.
  induction ops as [|op ops IH] using rev_ind; [apply consistent_init|].
  rewrite foldl_app. simpl. by apply consistent_step.
Qed.

(** *** Subscribing and cancelling *)


(** The members of every channel after a subscription. *)
Lemma stream_members channelId now st :
  consistent st →
  let controller := length (streams st) in
  let st1 := snd (stream channelId now st) in
  (controller ∉ members channelId st)
  ∧ (∃ subs, channels st1 !! channelId = Some subs
             ∧ fst (stream channelId now st)
               = {| conn_channelId := channelId; conn_subs := subs;
                    conn_controller := controller |}
             ∧ sets st1 !! subs = Some (members channelId st ++ [controller])
             ∧ (∀ id r, id ≠ channelId → channels st !! id = Some r →
                  r ≠ subs ∧ sets st1 !! r = sets st !! r)
             ∧ channels st1 = <[channelId := subs]> (channels st)
             ∧ (∀ old, channels st !! channelId = Some old → old = subs)
             ∧ (channels st !! channelId = None → members channelId st = []))
  ∧ buffers st1 !! length (buffers st)
    = Some (welcome_frame channelId (S (length (members channelId st))) now).
Proof.
  intros ((Hreg & Hnd) & Ha & Hd) controller st1.
  destruct (stream_state channelId now st) as (Hconn & Hc & Hs & Hst & Hb & _).
  fold st1 controller in Hc, Hs, Hst, Hb, Hconn.
  set (subs := from_option (λ s, s) (length (sets st)) (channels st !! channelId))
    in *.
  assert (controller ∉ members channelId st) as Hfresh.
  { unfold members, Set_values.
    destruct (channels st !! channelId) as [old|]; simpl; [|apply not_elem_of_nil].
    destruct (sets st !! old) as [l|] eqn:Hl; simpl; [|apply not_elem_of_nil].
    intros Hin. specialize (Ha old l controller Hl Hin). unfold controller in Ha. lia. }
  assert (sets st1 !! subs = Some (members channelId st ++ [controller])) as Hset.
  { rewrite Hs, list_lookup_alter_eq. revert Hfresh. unfold members, Set_values, subs.
    destruct (channels st !! channelId) as [old|] eqn:Hold; simpl.
    - destruct (lookup_lt_is_Some_2 (sets st) old (Hreg _ _ Hold)) as [l Hl].
      rewrite Hl. simpl. intros Hfresh. by rewrite bool_decide_false.
    - intros _. rewrite lookup_app_r, Nat.sub_diag by done. done. }
  split; [done|]. split.
  - exists subs. split; [by rewrite Hc, lookup_insert_eq|]. split; [done|].
    split; [done|]. split; [|split; [done|split]].
    + intros id r Hid Hr.
      assert (r ≠ subs) as Hrs.
      { unfold subs. destruct (channels st !! channelId) as [old|] eqn:Hold; simpl.
        - intros ->. by apply Hid, (Hd id channelId old).
        - apply Hreg in Hr. lia. }
      split; [done|]. rewrite Hs, list_lookup_alter_ne by done.
      destruct (channels st !! channelId); [done|].
      apply lookup_app_l. by eapply Hreg.
    + intros old Hold. unfold subs. by rewrite Hold.
    + intros Hnone. unfold members. by rewrite Hnone.
  - rewrite Hb. unfold Set_size, Set_values. rewrite Hset. simpl.
    rewrite length_app, Nat.add_1_r. by apply list_lookup_middle.
Qed.

Lemma members_other id st st' :
  channels st' !! id = channels st !! id →
  (∀ r, channels st !! id = Some r → sets st' !! r = sets st !! r) →
  members id st' = members id st.
Proof.
  intros Hc Hs. unfold members, Set_values. rewrite Hc.
  destruct (channels st !! id) as [r|] eqn:Hr; simpl; [|done].
  by rewrite (Hs r).
Qed.

(** A subscription adds its new controller at the end of the set of its
    channel and touches no other channel; the welcome frame counts the
    members there were plus one. *)
Theorem subscribe_joins_its_channel_only
    (channelId now : string) (st : State) :
  reachable st →
  let conn := fst (stream channelId now st) in
  let st1 := snd (stream channelId now st) in
  (conn_controller conn ∉ members channelId st)
  ∧ members channelId st1 = members channelId st ++ [conn_controller conn]
  ∧ (∀ id, id ≠ channelId → members id st1 = members id st)
  ∧ buffers st1 !! length (buffers st)
    = Some (welcome_frame channelId (S (length (members channelId st))) now).
Proof.
  intros Hcons%reachable_consistent conn st1.
  destruct (stream_members channelId now st Hcons)
    as (Hfresh & (subs & Hreg & Hconn & Hset & Hothers & Hch & _) & Hw).
  fold st1 conn in Hreg, Hconn, Hset, Hothers, Hch, Hw.
  assert (conn_controller conn = length (streams st)) as -> by (by rewrite Hconn).
  split; [done|]. split; [|split; [|done]].
  - unfold members at 1. rewrite Hreg. simpl. unfold Set_values. by rewrite Hset.
  - intros id Hid. apply members_other.
    + by rewrite Hch, lookup_insert_ne.
    + intros r Hr. by apply (Hothers id r).
Qed.


Lemma Set_delete_again subs controller st :
  Set_delete subs controller (Set_delete subs controller st)
  = Set_delete subs controller st.
Proof.
  unfold Set_delete, set_sets. simpl. f_equal.
  rewrite list_alter_alter_eq. apply list_alter_ext; [|done].
  intros l _. simpl. by apply list_filter_filter_l.
Qed.

(** Running the [cancel] callback a second time changes nothing. *)
Theorem cancel_twice_is_cancel_once
    (channelId : string) (subs controller : nat) (st : State) :
  cancel channelId subs controller (cancel channelId subs controller st)
  = cancel channelId subs controller st.
Proof.
  unfold cancel.
  destruct (bool_decide (Set_size subs (Set_delete subs controller st) = 0))
    eqn:Hempty.
  - change (Set_delete subs controller
              (set_channels (λ m, delete channelId m) (Set_delete subs controller st)))
      with (set_channels (λ m, delete channelId m)
              (Set_delete subs controller (Set_delete subs controller st))).
    rewrite Set_delete_again.
    change (Set_size subs (set_channels (λ m, delete channelId m)
                             (Set_delete subs controller st)))
      with (Set_size subs (Set_delete subs controller st)).
    rewrite Hempty. unfold set_channels. simpl. by rewrite delete_delete_eq.
  - by rewrite Set_delete_again, Hempty.
Qed.

(** *** Publishing *)

Lemma broadcast_accepts body now st c :
  accepts c (snd (broadcast body now st)) = accepts c st.
Proof.
  destruct (valid body) eqn:Hv;
    [|by destruct (broadcast_invalid JSON_stringify body now st Hv) as [_ ->]].
  destruct (valid_channelId body Hv) as [channelId Hc].
  rewrite (broadcast_valid JSON_stringify body now st channelId Hv Hc). simpl.
  destruct (channels st !! channelId) as [subs|]; [|done].
  case_bool_decide; [|done].
  by destruct (fanout_frame subs (length (buffers st)) (Set_values subs st)
                 (set_buffers (λ b, b ++ [position_frame body now]) st))
    as (_ & _ & _ & _ & _ & ->).
Qed.

Lemma broadcast_other_sets body now st channelId subs r :
  valid body = true → BroadcastBody.channelId body = Some channelId →
  channels st !! channelId = Some subs → r ≠ subs →
  sets (snd (broadcast body now st)) !! r = sets st !! r.
Proof.
  intros Hv Hc Hsubs Hr.
  rewrite (broadcast_valid JSON_stringify body now st channelId Hv Hc), Hsubs.
  simpl. case_bool_decide; [|done].
  rewrite fanout_sets. simpl. by rewrite list_lookup_alter_ne.
Qed.

Lemma broadcast_other_streams body now st channelId subs c :
  valid body = true → BroadcastBody.channelId body = Some channelId →
  channels st !! channelId = Some subs → c ∉ Set_values subs st →
  streams (snd (broadcast body now st)) !! c = streams st !! c.
Proof.
  intros Hv Hc Hsubs Hout.
  rewrite (broadcast_valid JSON_stringify body now st channelId Hv Hc), Hsubs.
  simpl. case_bool_decide; [|done].
  rewrite fanout_streams. simpl. rewrite filter_eq_absent by done. simpl.
  destruct (streams st !! c) as [[[] q]|]; simpl; [|done..].
  by rewrite app_nil_r.
Qed.

(** A publish stays within its channel: the registry is untouched, the
    sets of the other channels are untouched, and no stream outside the set
    of the channel is given anything. *)
Theorem publish_stays_within_channel
    (body : BroadcastBody.t) (now : string) (st : State)
    (channelId : string) (subs : nat) :
  valid body = true →
  BroadcastBody.channelId body = Some channelId →
  channels st !! channelId = Some subs →
  let st' := snd (broadcast body now st) in
  channels st' = channels st
  ∧ (∀ r, r ≠ subs → sets st' !! r = sets st !! r)
  ∧ (∀ c, c ∉ Set_values subs st → streams st' !! c = streams st !! c).
Proof.
  intros Hv Hc Hsubs st'. split; [apply broadcast_channels|]. split.
  - intros r Hr. by eapply broadcast_other_sets.
  - intros c Hout. by eapply broadcast_other_streams.
Qed.

Lemma filter_all (P : nat → Prop) `{!∀ x, Decision (P x)} (l : list nat) :
  (∀ c, c ∈ l → P c) → filter P l = l.
Proof.
  induction l as [|c l IH]; intros Hall; [done|].
  rewrite filter_cons_True by (apply Hall; by left).
  rewrite IH; [done|]. intros c' Hc'. apply Hall. by right.
Qed.

(** A subscriber whose stream has gone is counted by the publish that
    finds it out and by none after: a second publish to the channel reports
    the number of streams that took the first, finds every member
    readable, and removes nobody. *)
Theorem publish_counts_gone_subscriber_once
    (body1 body2 : BroadcastBody.t) (now1 now2 : string) (st : State)
    (channelId : string) (subs : nat) :
  valid body1 = true → valid body2 = true →
  BroadcastBody.channelId body1 = Some channelId →
  BroadcastBody.channelId body2 = Some channelId →
  channels st !! channelId = Some subs →
  let st1 := snd (broadcast body1 now1 st) in
  let survivors := filter (λ c, accepts c st = true) (Set_values subs st) in
  Set_values subs st1 = survivors
  ∧ (∀ c, c ∈ survivors → accepts c st1 = true)
  ∧ fst (broadcast body2 now2 st1) = published channelId (length survivors)
  ∧ Set_values subs (snd (broadcast body2 now2 st1)) = survivors.
Proof.
  intros Hv1 Hv2 Hc1 Hc2 Hsubs st1 survivors.
  pose proof (broadcast_Set_values JSON_stringify body1 now1 st channelId subs
                Hv1 Hc1 Hsubs) as Hset.
  fold st1 survivors in Hset.
  assert (channels st1 !! channelId = Some subs) as Hsubs1
    by (unfold st1; by rewrite broadcast_channels).
  assert (∀ c, c ∈ survivors → accepts c st1 = true) as Hall.
  { intros c [Hacc _]%list_elem_of_filter. unfold st1.
    by rewrite broadcast_accepts. }
  split; [done|]. split; [done|]. split.
  - rewrite (broadcast_valid JSON_stringify body2 now2 st1 channelId Hv2 Hc2), Hsubs1.
    simpl. unfold Set_size. by rewrite Hset.
  - rewrite (broadcast_Set_values JSON_stringify body2 now2 st1 channelId subs
               Hv2 Hc2 Hsubs1), Hset.
    by apply (filter_all (λ c, accepts c st1 = true)).
Qed.

(** Two publishes reach a subscriber in the order they were made: a member
    whose stream is readable has the buffer of the first and then the
    buffer of the second appended to its chunks. *)
Theorem publishes_arrive_in_order
    (body1 body2 : BroadcastBody.t) (now1 now2 : string) (st : State)
    (channelId : string) (subs c : nat) (s : Stream) :
  reachable st →
  valid body1 = true → valid body2 = true →
  BroadcastBody.channelId body1 = Some channelId →
  BroadcastBody.channelId body2 = Some channelId →
  channels st !! channelId = Some subs →
  c ∈ Set_values subs st →
  streams st !! c = Some s → readable s = true →
  let st2 := snd (broadcast body2 now2 (snd (broadcast body1 now1 st))) in
  let first := length (buffers st) in
  streams st2 !! c
  = Some {| readable := true; queue := queue s ++ [first; S first] |}
  ∧ buffers st2 !! first = Some (position_frame body1 now1)
  ∧ buffers st2 !! S first = Some (position_frame body2 now2).
Proof.
  intros Hreach Hv1 Hv2 Hc1 Hc2 Hsubs Hin Hs Hr st2 first.
  set (st1 := snd (broadcast body1 now1 st)) in *.
  pose proof (reachable_NoDup JSON_stringify st subs Hreach) as Hnd.
  assert (Set_values subs st ≠ []) as Hne.
  { intros Hnil. rewrite Hnil in Hin. by apply not_elem_of_nil in Hin. }
  destruct (broadcast_effects JSON_stringify body1 now1 st channelId subs
              Hv1 Hc1 Hsubs Hne) as [Hb1 _].
  fold st1 in Hb1.
  pose proof (broadcast_streams JSON_stringify body1 now1 st channelId subs c s
                Hv1 Hc1 Hsubs Hs Hr) as Hs1.
  fold st1 in Hs1. rewrite filter_eq_NoDup in Hs1 by done. simpl in Hs1.
  pose proof (broadcast_Set_values JSON_stringify body1 now1 st channelId subs
                Hv1 Hc1 Hsubs) as Hset1.
  fold st1 in Hset1.
  assert (channels st1 !! channelId = Some subs) as Hsubs1
    by (unfold st1; by rewrite broadcast_channels).
  assert (c ∈ Set_values subs st1) as Hin1.
  { rewrite Hset1. apply list_elem_of_filter. split; [|done].
    unfold accepts. by rewrite Hs. }
  assert (NoDup (Set_values subs st1)) as Hnd1
    by (rewrite Hset1; by apply NoDup_filter).
  assert (Set_values subs st1 ≠ []) as Hne1.
  { intros Hnil. rewrite Hnil in Hin1. by apply not_elem_of_nil in Hin1. }
  destruct (broadcast_effects JSON_stringify body2 now2 st1 channelId subs
              Hv2 Hc2 Hsubs1 Hne1) as [Hb2 _].
  fold st2 in Hb2.
  pose proof (broadcast_streams JSON_stringify body2 now2 st1 channelId subs c _
                Hv2 Hc2 Hsubs1 Hs1 eq_refl) as Hs2.
  fold st2 in Hs2. rewrite filter_eq_NoDup in Hs2 by done. simpl in Hs2.
  assert (length (buffers st1) = S first) as Hlen
    by (rewrite Hb1, length_app; simpl; unfold first; lia).
  split; [|split].
  - rewrite Hs2, Hlen. by rewrite <- app_assoc.
  - rewrite Hb2, Hb1. apply lookup_app_l_Some. by apply list_lookup_middle.
  - rewrite Hb2. by apply list_lookup_middle.
Qed.

End BroadcastExtras.

(** ** The further properties at sample inputs *)

Section ExtraInstances.
Import JS Broadcast Vocabulary E2E.

Local Abbreviation JSON_stringify := Runtime.JSON_stringify.
Local Abbreviation plane_distance :=
  (Domain.calculateDistance (λ x, x) (λ _, Num 1) (λ x, x) (λ y _, y) (Num 180)).
Local Abbreviation plane_label :=
  (Domain.formatDistance Runtime.Number_toString Runtime.Number_toFixed).

Lemma classifyDistance_monotone_witness :
  le (Num 20) (Num 3000) = true
  ∧ rank (Domain.classifyDistance (Num 20) None None)
    ≤ rank (Domain.classifyDistance (Num 3000) None None)
  ∧ rank (Domain.classifyDistance (Num 3000) None None) ≤ 2.
Proof.
  split; [reflexivity|].
  apply (classifyDistance_monotone (Num 20) (Num 3000) None None). reflexivity.
Defined.

Lemma formatDistance_rounds_up_to_1000m_witness :
  (999.5 <= 999.7)%Q ∧ (999.7 < 1000)%Q
  ∧ plane_label (Num 999.7)
    = String.append (Runtime.Number_toString (Num 1000)) "m".
Proof.
  split; [by vm_compute|]. split; [by vm_compute|].
  apply (formatDistance_rounds_up_to_1000m Runtime.Number_toString
           Runtime.Number_toFixed 999.7); by vm_compute.
Defined.

Example findNearby_at_the_edge :
  (λ r, (PresenceRecord.profileId r, PresenceRecord.distanceMeters r,
         PresenceRecord.status r))
  <$> findNearby myPosition [Samples.at_the_edge] (Some (Num 1274)) None
  = [("edge", Num 1274, out_of_range)].
Proof. vm_compute. done. Qed.

Lemma findNearby_out_of_range_within_half_metre_witness :
  let r := presence plane_distance plane_label myPosition (Num 1274) (Num 30)
             Samples.at_the_edge in
  r ∈ findNearby myPosition [Samples.at_the_edge] (Some (Num 1274)) None
  ∧ PresenceRecord.status r ≠ unknown
  ∧ (PresenceRecord.status r = out_of_range →
     ∃ c q m,
       c ∈ [Samples.at_the_edge]
       ∧ PresenceRecord.profileId r = ProfileLocation.profileId c
       ∧ plane_distance myPosition (ProfileLocation.location c) = Num q
       ∧ default (Num 5000) (Some (Num 1274)) = Num m
       ∧ (m < q)%Q ∧ (q < m + (1 # 2))%Q).
Proof.
  intros r.
  assert (r ∈ findNearby myPosition [Samples.at_the_edge] (Some (Num 1274)) None)
    as Hin by (vm_compute; apply list_elem_of_here).
  split; [exact Hin|].
  exact (findNearby_out_of_range_within_half_metre
           (λ x, x) (λ _, Num 1) (λ x, x) (λ y _, y) (Num 180)
           Runtime.Number_toString Runtime.Number_toFixed
           myPosition [Samples.at_the_edge] (Some (Num 1274)) None r Hin).
Defined.

Lemma findNearby_wider_radius_keeps_witness :
  le (Num 5000) (Num 10000) = true
  ∧ let narrow := findNearby myPosition candidates (Some (Num 5000)) None in
    let wide := findNearby myPosition candidates (Some (Num 10000)) None in
    length narrow ≤ length wide
    ∧ ∀ r, r ∈ narrow →
        ∃ r', r' ∈ wide
              ∧ PresenceRecord.profileId r' = PresenceRecord.profileId r
              ∧ PresenceRecord.location r' = PresenceRecord.location r
              ∧ PresenceRecord.distanceMeters r' = PresenceRecord.distanceMeters r
              ∧ PresenceRecord.distanceLabel r' = PresenceRecord.distanceLabel r.
Proof.
  split; [reflexivity|].
  apply (findNearby_wider_radius_keeps
           (λ x, x) (λ _, Num 1) (λ x, x) (λ y _, y) (Num 180)
           Runtime.Number_toString Runtime.Number_toFixed
           myPosition candidates (Num 5000) (Num 10000) None).
  reflexivity.
Defined.

Lemma calculate_status_agrees_with_distance_witness :
  status (Samples.calculate Samples.berlin_to_munich) = 200
  ∧ ∃ distanceMeters presence,
      Api.JSON_get "distanceMeters" (json (Samples.calculate Samples.berlin_to_munich))
      = Some (JNumber distanceMeters)
      ∧ Api.JSON_get "status" (json (Samples.calculate Samples.berlin_to_munich))
        = Some (Api.PresenceStatus_json presence)
      ∧ match presence with
        | nearby => le distanceMeters (Num 30) = true
        | in_range =>
            le (Num 30) distanceMeters = true ∧ le distanceMeters (Num 5000) = true
        | out_of_range =>
            distanceMeters = NaN ∨ le (Num 5000) distanceMeters = true
        | unknown => False
        end.
Proof.
  split; [reflexivity|].
  apply (calculate_status_agrees_with_distance
           (λ x, x) (λ _, Num 1) (λ x, x) (λ y _, y) (Num 180)
           Runtime.Number_toString Runtime.Number_toFixed
           Samples.berlin_to_munich).
  reflexivity.
Defined.

Lemma nearby_count_within_total_witness :
  NearbyBody.candidates Samples.nearby_request = Some candidates
  ∧ status (Samples.nearby Samples.nearby_request) = 200
  ∧ let radius := default (Num 5000) (NearbyBody.maxRadiusMeters Samples.nearby_request) in
    let found :=
      findNearby (Api.GeoPoint_of (NearbyBody.myPosition Samples.nearby_request))
                 candidates (Some radius) None in
    json (Samples.nearby Samples.nearby_request)
    = JObject [("nearby", JArray (Api.PresenceRecord_json <$> found));
               ("count", JNumber (of_nat (length found)));
               ("totalCandidates", JNumber (of_nat (length candidates)));
               ("maxRadiusMeters", JNumber radius)]
    ∧ length found ≤ length candidates
    ∧ (candidates = [] → found = []).
Proof.
  split; [reflexivity|]. split; [reflexivity|].
  apply (nearby_count_within_total
           (λ x, x) (λ _, Num 1) (λ x, x) (λ y _, y) (Num 180)
           Runtime.Number_toString Runtime.Number_toFixed
           Samples.nearby_request candidates);
    reflexivity.
Defined.

Lemma consent_valid_field_agrees_witness :
  status (Api.consent Samples.revoke_request clock) = 200
  ∧ ∃ consent,
      Api.JSON_get "consent" (json (Api.consent Samples.revoke_request clock))
      = Some (Api.LocationConsent_json consent)
      ∧ Api.JSON_get "valid" (json (Api.consent Samples.revoke_request clock))
        = Some (JBool (Domain.isConsentValid (Some consent))).
Proof.
  split; [reflexivity|].
  apply (consent_valid_field_agrees Samples.revoke_request clock). reflexivity.
Defined.

Lemma subscribe_joins_its_channel_only_witness :
  reachable JSON_stringify one_gone_one_open
  ∧ let conn := fst (stream "e2e-realtime" clock one_gone_one_open) in
    let st1 := snd (stream "e2e-realtime" clock one_gone_one_open) in
    (conn_controller conn ∉ members "e2e-realtime" one_gone_one_open)
    ∧ members "e2e-realtime" st1
      = members "e2e-realtime" one_gone_one_open ++ [conn_controller conn]
    ∧ (∀ id, id ≠ "e2e-realtime" → members id st1 = members id one_gone_one_open)
    ∧ buffers st1 !! length (buffers one_gone_one_open)
      = Some (welcome_frame JSON_stringify "e2e-realtime"
                (S (length (members "e2e-realtime" one_gone_one_open))) clock).
Proof.
  split; [eexists; reflexivity|].
  apply (subscribe_joins_its_channel_only JSON_stringify "e2e-realtime" clock
           one_gone_one_open).
  eexists. reflexivity.
Defined.


Lemma publish_stays_within_channel_witness :
  valid realtime_sender = true
  ∧ BroadcastBody.channelId realtime_sender = Some "e2e-realtime"
  ∧ channels one_gone_one_open !! "e2e-realtime" = Some 0
  ∧ let st' := snd (broadcast realtime_sender clock one_gone_one_open) in
    channels st' = channels one_gone_one_open
    ∧ (∀ r, r ≠ 0 → sets st' !! r = sets one_gone_one_open !! r)
    ∧ (∀ c, c ∉ Set_values 0 one_gone_one_open →
         streams st' !! c = streams one_gone_one_open !! c).
Proof.
  split; [reflexivity|]. split; [reflexivity|]. split; [reflexivity|].
  apply (publish_stays_within_channel JSON_stringify realtime_sender clock
           one_gone_one_open "e2e-realtime" 0);
    reflexivity.
Defined.

Lemma publish_counts_gone_subscriber_once_witness :
  valid realtime_sender = true ∧ valid realtime_sender = true
  ∧ BroadcastBody.channelId realtime_sender = Some "e2e-realtime"
  ∧ BroadcastBody.channelId realtime_sender = Some "e2e-realtime"
  ∧ channels one_gone_one_open !! "e2e-realtime" = Some 0
  ∧ let st1 := snd (broadcast realtime_sender clock one_gone_one_open) in
    let survivors :=
      filter (λ c, accepts c one_gone_one_open = true)
             (Set_values 0 one_gone_one_open) in
    Set_values 0 st1 = survivors
    ∧ (∀ c, c ∈ survivors → accepts c st1 = true)
    ∧ fst (broadcast realtime_sender clock st1)
      = published "e2e-realtime" (length survivors)
    ∧ Set_values 0 (snd (broadcast realtime_sender clock st1)) = survivors.
Proof.
  do 5 (split; [reflexivity|]).
  apply (publish_counts_gone_subscriber_once JSON_stringify
           realtime_sender realtime_sender clock clock one_gone_one_open
           "e2e-realtime" 0);
    reflexivity.
Defined.

Lemma publishes_arrive_in_order_witness :
  let s := {| readable := true; queue := [0] |} in
  reachable JSON_stringify one_subscriber
  ∧ valid realtime_sender = true ∧ valid realtime_sender = true
  ∧ BroadcastBody.channelId realtime_sender = Some "e2e-realtime"
  ∧ BroadcastBody.channelId realtime_sender = Some "e2e-realtime"
  ∧ channels one_subscriber !! "e2e-realtime" = Some 0
  ∧ 0 ∈ Set_values 0 one_subscriber
  ∧ streams one_subscriber !! 0 = Some s
  ∧ readable s = true
  ∧ let st2 :=
      snd (broadcast realtime_sender clock
             (snd (broadcast realtime_sender clock one_subscriber))) in
    let first := length (buffers one_subscriber) in
    streams st2 !! 0
    = Some {| readable := true; queue := queue s ++ [first; S first] |}
    ∧ buffers st2 !! first = Some (position_frame JSON_stringify realtime_sender clock)
    ∧ buffers st2 !! S first
      = Some (position_frame JSON_stringify realtime_sender clock).
Proof.
  intros s.
  split; [eexists; reflexivity|].
  do 5 (split; [reflexivity|]).
  split; [vm_compute; apply list_elem_of_here|].
  split; [reflexivity|]. split; [reflexivity|].
  apply (publishes_arrive_in_order JSON_stringify realtime_sender realtime_sender
           clock clock one_subscriber "e2e-realtime" 0 0 s);
    try reflexivity.
  - eexists. reflexivity.
  - vm_compute. apply list_elem_of_here.
Defined.

End ExtraInstances.
